(** * go-marathon event subscriptions (subscription.go)

    A shallow embedding of the event-subscription core of the Marathon
    client: attaching and detaching listeners, the callback (push) and
    SSE (pull) transports, decoding and dispatch of events.

    The Go methods on [*marathonClient] become functions in a small
    state monad over the client, the Go runtime objects they touch
    (channels, wait groups, goroutines) and the journal of calls made to
    collaborators outside the file. *)

From stdpp Require Import base gmap list strings pretty fin_maps.

Set Warnings "-clear-no-such-hyp".

Open Scope string_scope.
Open Scope list_scope.
Open Scope Z_scope.

(** ** Values of the program *)

(** Go [error] values.  The dynamic type matters to [connectToSSE]
    (a type switch on [newRequestError]); [fmt.Errorf] builds an
    [errorString]; [foreignError] stands for errors made by the
    libraries the file calls (net, json, eventsource, the API layer). *)
Inductive error : Type :=
| errorString (msg : string)
| newRequestError (msg : string)
| foreignError (msg : string).

(** [err.Error()] *)
Definition Error (e : error) : string :=
  match e with
  | errorString m => m
  | newRequestError m => m
  | foreignError m => m
  end.

(** A Go result pair [(v, err)]: [inl err] when [err != nil]. *)
Abbreviation result A := (sum error A).

(** Handles of runtime objects.  Every [make] and every [&T{}] takes
    the next free number, so an [EventsChannel], a [done] channel and a
    [*sync.WaitGroup] are each named by the number they were made with. *)
Abbreviation EventsChannel := nat (only parsing).

(** [type Event struct { ID int; Name string; Event interface{} }].
    A Go [int] is read as the integer it stands for; on such integers
    Go's [&] is [Z.land] (both work on the two's complement form). *)
Record Event : Type := mkEvent {
  ID : Z;
  Name : string;
  EventData : string
}.

(** [EventsChannelContext] *)
Record EventsChannelContext : Type := mkContext {
  filter : Z;
  done : nat;
  completion : nat
}.

Record Config : Type := mkConfig {
  EventsTransport : Z;
  CallbackURL : string;
  EventsPort : Z;
  EventsInterface : string
}.

(** [http.Server] as built by [registerCallbackSubscription];
    durations in seconds. *)
Record Server : Type := mkServer {
  Addr : string;
  ReadTimeout : Z;
  WriteTimeout : Z;
  MaxHeaderBytes : Z
}.

(** The fields of [marathonClient] the file reads or writes.  [hosts]
    is the list of members marked down, in the order they were marked. *)
Record marathonClient : Type := mkClient {
  config : Config;
  ipAddress : string;
  eventsHTTP : option Server;
  listeners : gmap nat EventsChannelContext;
  subscribedToSSE : bool;
  hosts : list string
}.

(** What an [*eventsource.Stream] yields to the [select] of
    [listenToSSE], in the order it is taken. *)
Inductive StreamItem : Type :=
| SEvent (data : string)
| SError (err : error).

Abbreviation Stream := (list StreamItem).

(** Goroutines started by the file, each at the point it has reached. *)
Inductive Goroutine : Type :=
| GDeliver (ch : nat) (context : EventsChannelContext) (e : Event)
| GDelivered (context : EventsChannelContext)
| GFinalize (completion : nat) (channel : nat)
| GClose (channel : nat)
| GServe (binding : string)
| GSSE.

(** Calls that leave the file, journalled in program order. *)
Inductive Call : Type :=
| CGetInterfaceAddress (iface : string)
| CHandleFunc (pattern : string)
| CNetListen (binding : string)
| CApiGet (path : string)
| CApiPost (path : string)
| CApiDelete (path : string)
| CBuildAPIRequest (method path : string)
| CSubscribeWith (request : string)
| CStreamClose
| CJsonDecode (content : string)
| CSleep (seconds : Z).

(** ** Collaborators outside the file

    Constants declared elsewhere in the package and the answers of
    the outside world.  A network-facing answer may depend on the
    moment of the call, given as the number of calls journalled so
    far. *)
Record Env : Type := mkEnv {
  EventsTransportCallback : Z;
  EventsTransportSSE : Z;
  defaultEventsURL : string;
  marathonAPISubscription : string;
  marathonAPIEventStream : string;
  getInterfaceAddress : nat -> string -> result string;
  netListen : nat -> string -> option error;
  apiGetSubscriptions : nat -> result (list string);
  apiPost : nat -> string -> option error;
  apiDelete : nat -> string -> option error;
  buildAPIRequest : nat -> list string -> string -> string -> result (string * string);
  subscribeWith : nat -> string -> result Stream;
  decodeEventType : string -> result string;
  GetEvent : string -> result Event;
  decodeEvent : string -> Event -> result string
}.

(** ** Runtime state *)
Record Runtime : Type := mkRuntime {
  client : marathonClient;
  fresh : nat;
  closed : gset nat;
  waitGroups : gmap nat Z;
  goroutines : list Goroutine;
  journal : list Call;
  debugLogs : list string
}.

Inductive Outcome (A : Type) : Type :=
| Ok (a : A)
| Panic (msg : string)
| Pending.
Arguments Ok {A} a.
Arguments Panic {A} msg.
Arguments Pending {A}.

Definition M (A : Type) : Type := Runtime -> Outcome A * Runtime.

Definition ret {A} (a : A) : M A := fun s => (Ok a, s).

Definition bind {A B} (m : M A) (f : A -> M B) : M B :=
  fun s =>
    match m s with
    | (Ok a, s') => f a s'
    | (Panic msg, s') => (Panic msg, s')
    | (Pending, s') => (Pending, s')
    end.

Notation "'do' x <- m ; k" := (bind m (fun x => k))
  (at level 10, x name, m at level 100, k at level 200).
Notation "m ;;; k" := (bind m (fun _ => k))
  (at level 100, k at level 200, right associativity).

Definition panic {A} (msg : string) : M A := fun s => (Panic msg, s).
Definition pending {A} : M A := fun s => (Pending, s).

Definition getClient : M marathonClient := fun s => (Ok (client s), s).

Definition setRuntimeClient (c : marathonClient) (s : Runtime) : Runtime :=
  mkRuntime c (fresh s) (closed s) (waitGroups s)
            (goroutines s) (journal s) (debugLogs s).

Definition putClient (c : marathonClient) : M unit :=
  fun s => (Ok tt, setRuntimeClient c s).

(** The moment of a call. *)
Definition now : M nat := fun s => (Ok (length (journal s)), s).

Definition record (c : Call) : M unit :=
  fun s => (Ok tt,
            mkRuntime (client s) (fresh s) (closed s)
                      (waitGroups s) (goroutines s) (journal s ++ [c]) (debugLogs s)).

(** [r.debugLog(...)], with the message already formatted. *)
Definition debugLog (msg : string) : M unit :=
  fun s => (Ok tt,
            mkRuntime (client s) (fresh s) (closed s)
                      (waitGroups s) (goroutines s) (journal s) (debugLogs s ++ [msg])).

(** [go f(...)] *)
Definition go (g : Goroutine) : M unit :=
  fun s => (Ok tt,
            mkRuntime (client s) (fresh s) (closed s)
                      (waitGroups s) (goroutines s ++ [g]) (journal s) (debugLogs s)).

(** [make(...)] and [&T{}]: the next free handle. *)
Definition alloc : M nat :=
  fun s => (Ok (fresh s),
            mkRuntime (client s) (S (fresh s)) (closed s) (waitGroups s)
                      (goroutines s) (journal s) (debugLogs s)).

(** [close(c)]; closing a closed channel panics. *)
Definition close (c : nat) : M unit :=
  fun s =>
    if decide (c ∈ closed s) then (Panic "close of closed channel", s)
    else (Ok tt,
          mkRuntime (client s) (fresh s) ({[c]} ∪ closed s) (waitGroups s)
                    (goroutines s) (journal s) (debugLogs s)).

(** The counter of a wait group; a new one counts zero. *)
Definition counter (wgs : gmap nat Z) (w : nat) : Z := default 0 (wgs !! w).

(** [wg.Add(delta)]; [wg.Done()] is [wg.Add(-1)].  A negative counter
    panics. *)
Definition wgAdd (w : nat) (delta : Z) : M unit :=
  fun s =>
    let n := counter (waitGroups s) w + delta in
    if n <? 0 then (Panic "sync: negative WaitGroup counter", s)
    else (Ok tt,
          mkRuntime (client s) (fresh s) (closed s) (<[w := n]> (waitGroups s))
                    (goroutines s) (journal s) (debugLogs s)).

Definition setIpAddress (ip : string) (r : marathonClient) : marathonClient :=
  mkClient (config r) ip (eventsHTTP r) (listeners r) (subscribedToSSE r) (hosts r).

Definition setEventsHTTP (srv : option Server) (r : marathonClient) : marathonClient :=
  mkClient (config r) (ipAddress r) srv (listeners r) (subscribedToSSE r) (hosts r).

Definition setListeners (l : gmap nat EventsChannelContext) (r : marathonClient)
  : marathonClient :=
  mkClient (config r) (ipAddress r) (eventsHTTP r) l (subscribedToSSE r) (hosts r).

Definition setSubscribedToSSE (b : bool) (r : marathonClient) : marathonClient :=
  mkClient (config r) (ipAddress r) (eventsHTTP r) (listeners r) b (hosts r).

(** [r.hosts.markDown(member)] *)
Definition markDown (member : string) (r : marathonClient) : marathonClient :=
  mkClient (config r) (ipAddress r) (eventsHTTP r) (listeners r) (subscribedToSSE r)
           (hosts r ++ [member]).

Definition modifyClient (f : marathonClient -> marathonClient) : M unit :=
  do r <- getClient; putClient (f r).

(** ** The methods of subscription.go *)

Section Client.
Variable env : Env.

(** [Subscriptions]: the callback URLs registered with Marathon. *)
Definition Subscriptions : M (result (list string)) :=
  do t <- now;
  record (CApiGet (marathonAPISubscription env));;;
  ret (apiGetSubscriptions env t).

(** [SubscriptionURL] *)
Definition SubscriptionURL (r : marathonClient) : string :=
  if String.eqb (CallbackURL (config r)) "" then
    "http://" +:+ ipAddress r +:+ ":" +:+ pretty (EventsPort (config r))
      +:+ defaultEventsURL env
  else CallbackURL (config r) +:+ defaultEventsURL env.

(** [Subscribe] *)
Definition Subscribe (callback : string) : M (option error) :=
  let path := marathonAPISubscription env +:+ "?callbackUrl=" +:+ callback in
  do t <- now;
  record (CApiPost path);;;
  ret (apiPost env t path).

(** [Unsubscribe] *)
Definition Unsubscribe (callback : string) : M (option error) :=
  let path := marathonAPISubscription env +:+ "?callbackUrl=" +:+ callback in
  do t <- now;
  record (CApiDelete path);;;
  ret (apiDelete env t path).

(** The [range] loop of [HasSubscription]. *)
Fixpoint hasCallback (callback : string) (urls : list string) : bool :=
  match urls with
  | [] => false
  | subscription :: rest =>
      if String.eqb callback subscription then true else hasCallback callback rest
  end.

(** [HasSubscription] *)
Definition HasSubscription (callback : string) : M (result bool) :=
  do subscriptions <- Subscriptions;
  match subscriptions with
  | inl err => ret (inl err)
  | inr urls => ret (inr (hasCallback callback urls))
  end.

(** The [if r.eventsHTTP == nil] block of [registerCallbackSubscription].
    [Some res] is a [return res] from inside the block; [None] falls
    through to the registration of the callback. *)
Definition bindEventsHTTP : M (option (option error)) :=
  do r <- getClient;
  match eventsHTTP r with
  | Some _ => ret None
  | None =>
      do t <- now;
      record (CGetInterfaceAddress (EventsInterface (config r)));;;
      match getInterfaceAddress env t (EventsInterface (config r)) with
      | inl err =>
          ret (Some (Some (errorString
            ("Unable to get the ip address from the interface: "
               +:+ EventsInterface (config r) +:+ ", error: " +:+ Error err))))
      | inr ip =>
          modifyClient (setIpAddress ip);;;
          let binding := ip +:+ ":" +:+ pretty (EventsPort (config r)) in
          record (CHandleFunc (defaultEventsURL env));;;
          modifyClient (setEventsHTTP (Some (mkServer binding 10 10 (Z.shiftl 1 20))));;;
          do t' <- now;
          record (CNetListen binding);;;
          match netListen env t' binding with
          | Some err => ret (Some None)
          | None => go (GServe binding);;; ret None
          end
      end
  end.

(** [registerCallbackSubscription] *)
Definition registerCallbackSubscription : M (option error) :=
  do early <- bindEventsHTTP;
  match early with
  | Some res => ret res
  | None =>
      do r <- getClient;
      let callback := SubscriptionURL r in
      do has <- HasSubscription callback;
      match has with
      | inl err => ret (Some err)
      | inr found => if found then ret None else Subscribe callback
      end
  end.

(** [registerSSESubscription] *)
Definition registerSSESubscription : M (option error) :=
  do r <- getClient;
  if subscribedToSSE r then ret None
  else
    go GSSE;;;
    modifyClient (setSubscribedToSSE true);;;
    ret None.

(** [registerSubscription] *)
Definition registerSubscription : M (option error) :=
  do r <- getClient;
  let transport := EventsTransport (config r) in
  if transport =? EventsTransportCallback env then registerCallbackSubscription
  else if transport =? EventsTransportSSE env then registerSSESubscription
  else ret (Some (errorString
         ("the events transport: " +:+ pretty transport +:+ " is not supported"))).

(** [AddEventsListener].  The critical section between [r.Lock()] and
    the deferred [r.Unlock()] is one transition of the runtime. *)
Definition AddEventsListener (filter : Z) : M (result EventsChannel) :=
  do failed <- registerSubscription;
  match failed with
  | Some err => ret (inl err)
  | None =>
      do channel <- alloc;
      do done <- alloc;
      do completion <- alloc;
      modifyClient (fun r =>
        setListeners (<[channel := mkContext filter done completion]> (listeners r)) r);;;
      ret (inr channel)
  end.

(** [RemoveEventsListener], likewise one transition. *)
Definition RemoveEventsListener (channel : EventsChannel) : M unit :=
  do r <- getClient;
  match listeners r !! channel with
  | Some context =>
      close (done context);;;
      modifyClient (fun r => setListeners (delete channel (listeners r)) r);;;
      do r' <- getClient;
      (if (EventsTransport (config r') =? EventsTransportCallback env)
            && (size (listeners r') =? 0)%nat
       then Unsubscribe (SubscriptionURL r');;; ret tt
       else ret tt);;;
      go (GFinalize (completion context) channel)
  | None => ret tt
  end.

(** One turn of the [range r.listeners] loop of [handleEvent]. *)
Definition dispatchOne (event : Event) (entry : nat * EventsChannelContext) : M unit :=
  let (channel, context) := entry in
  if Z.land (ID event) (filter context) =? 0 then ret tt
  else
    wgAdd (completion context) 1;;;
    go (GDeliver channel context event).

Fixpoint dispatchAll (event : Event) (entries : list (nat * EventsChannelContext))
  : M unit :=
  match entries with
  | [] => ret tt
  | entry :: rest => dispatchOne event entry;;; dispatchAll event rest
  end.

(** The three decoding steps of [handleEvent]: the envelope, the
    catalogue lookup, the payload. *)
Definition decode (content : string) : M (result Event) :=
  record (CJsonDecode content);;;
  match decodeEventType env content with
  | inl err =>
      ret (inl (errorString
        ("failed to decode the event type, content: " +:+ content
           +:+ ", error: " +:+ Error err)))
  | inr eventType =>
      match GetEvent env eventType with
      | inl err =>
          ret (inl (errorString
            ("unable to handle event, type: " +:+ eventType
               +:+ ", error: " +:+ Error err)))
      | inr event =>
          record (CJsonDecode content);;;
          match decodeEvent env content event with
          | inl err =>
              ret (inl (errorString
                ("failed to decode the event, id: " +:+ pretty (ID event)
                   +:+ ", error: " +:+ Error err)))
          | inr data => ret (inr (mkEvent (ID event) (Name event) data))
          end
      end
  end.

(** [handleEvent].  The loop runs under [r.RLock()]; the order in which
    Go visits the map is not fixed, [map_to_list] is one such order. *)
Definition handleEvent (content : string) : M (option error) :=
  do decoded <- decode content;
  match decoded with
  | inl err => ret (Some err)
  | inr event =>
      do r <- getClient;
      dispatchAll event (map_to_list (listeners r));;;
      ret None
  end.

(** The [http.ResponseWriter] of a request: the status passed to
    [WriteHeader], if it was called, and the bytes written. *)
Record ResponseWriter : Type := mkWriter {
  wroteHeader : option Z;
  written : string
}.

(** net/http answers [200 OK] when the handler returns without a call
    to [WriteHeader]. *)
Definition responseStatus (w : ResponseWriter) : Z := default 200 (wroteHeader w).

(** [handleCallbackEvent]; [body] is what [ioutil.ReadAll(request.Body)]
    returned. *)
Definition handleCallbackEvent (writer : ResponseWriter) (body : result string)
  : M ResponseWriter :=
  match body with
  | inl err =>
      debugLog ("handleCallbackEvent(): failed to read request body, error: "
                  +:+ Error err);;;
      ret writer
  | inr content =>
      do failed <- handleEvent content;
      match failed with
      | Some err =>
          debugLog ("handleCallbackEvent(): failed to handle event: " +:+ Error err);;;
          ret writer
      | None => ret writer
      end
  end.

(** [connectToSSE]; each turn of its [for] loop takes one unit of
    [fuel]. *)
Fixpoint connectToSSE (fuel : nat) : M (result Stream) :=
  match fuel with
  | O => pending
  | S fuel' =>
      do r <- getClient;
      do t <- now;
      record (CBuildAPIRequest "GET" (marathonAPIEventStream env));;;
      match buildAPIRequest env t (hosts r) "GET" (marathonAPIEventStream env) with
      | inl (newRequestError msg) =>
          panic ("Requests for SSE subscriptions should never fail to be created: "
                   +:+ Error (newRequestError msg))
      | inl err => ret (inl err)
      | inr (request, member) =>
          do t' <- now;
          record (CSubscribeWith request);;;
          match subscribeWith env t' request with
          | inl err =>
              debugLog ("Error subscribing to Marathon event stream: " +:+ Error err);;;
              modifyClient (markDown member);;;
              connectToSSE fuel'
          | inr stream => ret (inr stream)
          end
      end
  end.

(** [listenToSSE]: a stream that has nothing more to yield blocks the
    [select] for good. *)
Fixpoint listenToSSE (stream : Stream) : M error :=
  match stream with
  | [] => pending
  | SEvent data :: rest =>
      do failed <- handleEvent data;
      match failed with
      | Some err =>
          debugLog ("listenToSSE(): failed to handle event: " +:+ Error err);;;
          listenToSSE rest
      | None => listenToSSE rest
      end
  | SError err :: _ => ret err
  end.

(** The goroutine started by [registerSSESubscription]. *)
Fixpoint superviseSSE (fuel : nat) : M unit :=
  match fuel with
  | O => pending
  | S fuel' =>
      do connected <- connectToSSE fuel;
      match connected with
      | inl err =>
          debugLog ("Error connecting SSE subscription: " +:+ Error err);;;
          record (CSleep 5);;;
          superviseSSE fuel'
      | inr stream =>
          do err <- listenToSSE stream;
          record CStreamClose;;;
          debugLog ("Error on SSE subscription: " +:+ Error err);;;
          superviseSSE fuel'
      end
  end.

End Client.

(** The client as [NewClient] leaves it, and the runtime at start. *)
Definition newClient (cfg : Config) : marathonClient :=
  mkClient cfg "" None ∅ false [].

Definition initial (cfg : Config) : Runtime :=
  mkRuntime (newClient cfg) 0%nat ∅ ∅ [] [] [].

(** ** A small world to run the model on

    The catalogue knows two event types; an envelope is decoded by
    taking the whole content as the tag, an empty content being a
    decoding error; the network answers every call with success, except
    that binding the listener on port 0 fails. *)
Definition sampleGetEvent (tag : string) : result Event :=
  if String.eqb tag "status_update_event" then inr (mkEvent 2 tag "")
  else if String.eqb tag "deployment_info" then inr (mkEvent 4 tag "")
  else inl (errorString ("the event type: " +:+ tag +:+ " was not found or supported")).

Definition sampleEnv : Env :=
  mkEnv 1 2 "/event" "v2/eventSubscriptions" "v2/events"
        (fun _ _ => inr "10.0.0.7")
        (fun _ binding =>
           if String.eqb binding "10.0.0.7:0"
           then Some (foreignError "listen tcp: address already in use") else None)
        (fun _ => inr [])
        (fun _ _ => None)
        (fun _ _ => None)
        (fun _ down _ path =>
           if (length down <? 2)%nat then inr ("http://m" +:+ pretty (length down) +:+ "/" +:+ path,
                                               "m" +:+ pretty (length down))
           else inl (foreignError "all the Marathon hosts are presently down"))
        (fun _ request =>
           if String.eqb request "http://m0/v2/events"
           then inl (foreignError "connection refused")
           else inr [SEvent "bogus"; SEvent "deployment_info"; SError (foreignError "EOF")])
        (fun content => if String.eqb content "" then inl (foreignError "EOF") else inr content)
        sampleGetEvent
        (fun content _ => inr content).

(** A world where nothing answers: the interface does not resolve,
    Marathon cannot be reached, a payload never fits its type. *)
Definition offlineEnv : Env :=
  mkEnv 1 2 "/event" "v2/eventSubscriptions" "v2/events"
        (fun _ _ => inl (foreignError "no such network interface"))
        (fun _ _ => None)
        (fun _ => inl (foreignError "connection refused"))
        (fun _ _ => Some (foreignError "connection refused"))
        (fun _ _ => Some (foreignError "connection refused"))
        (fun _ _ _ _ => inl (foreignError "all the Marathon hosts are presently down"))
        (fun _ _ => inl (foreignError "connection refused"))
        (fun content => if String.eqb content "" then inl (foreignError "EOF") else inr content)
        sampleGetEvent
        (fun _ _ => inl (foreignError "cannot unmarshal string into Go value")).

(** The sample world with a Marathon that cannot be asked for its
    subscriptions. *)
Definition unansweredEnv : Env :=
  mkEnv 1 2 "/event" "v2/eventSubscriptions" "v2/events"
        (getInterfaceAddress sampleEnv) (netListen sampleEnv)
        (apiGetSubscriptions offlineEnv) (apiPost sampleEnv) (apiDelete sampleEnv)
        (buildAPIRequest sampleEnv) (subscribeWith sampleEnv)
        (decodeEventType sampleEnv) (GetEvent sampleEnv) (decodeEvent sampleEnv).

Definition pushConfig (port : Z) : Config := mkConfig 1 "" port "eth0".
Definition pullConfig : Config := mkConfig 2 "" 0 "".

Definition setJournal (calls : list Call) (s : Runtime) : Runtime :=
  mkRuntime (client s) (fresh s) (closed s) (waitGroups s) (goroutines s) calls
            (debugLogs s).

Definition setDebugLogs (logs : list string) (s : Runtime) : Runtime :=
  mkRuntime (client s) (fresh s) (closed s) (waitGroups s) (goroutines s)
            (journal s) logs.

(** A piece of the program that neither reads nor writes the journal. *)
Definition ignoresJournal {A} (m : M A) : Prop :=
  forall calls s, m (setJournal calls s) = (fst (m s), setJournal calls (snd (m s))).

(** The runtime a piece of the program leaves behind. *)
Definition exec {A} (m : M A) (s : Runtime) : Runtime := snd (m s).

(** One subscriber (channel 0, filter 2) and two subscribers (channels
    0 and 3, filters 2 and 6) under the callback transport, and the
    same two under the SSE transport. *)
Definition pushOne : Runtime :=
  exec (AddEventsListener sampleEnv 2) (initial (pushConfig 8080)).
Definition pushTwo : Runtime := exec (AddEventsListener sampleEnv 6) pushOne.
Definition pullTwo : Runtime :=
  exec (AddEventsListener sampleEnv 6)
       (exec (AddEventsListener sampleEnv 2) (initial pullConfig)).

(** ** The concurrent system

    The goroutines of the program interleaved.  A call of
    [AddEventsListener] or [RemoveEventsListener] holds the write lock
    and is one step, taken only while no [handleEvent] holds the read
    lock.  A [handleEvent] that has decoded its event holds the read
    lock as a [Reader]: the event and the registry entries its loop has
    still to visit.  Any number of readers run side by side with each
    other and with the delivery and finalizer goroutines.  Those
    goroutines take no lock; what they share with a locked section is
    the [done] channel it closes and the wait group a reader adds to,
    one atomic operation each, so a locked section is taken as a
    single step. *)
Record Reader : Type := mkReader {
  readerEvent : Event;
  readerTodo : list (nat * EventsChannelContext)
}.

Record System : Type := mkSystem {
  runtime : Runtime;
  readers : list Reader;
  panicked : option string
}.

Definition setGoroutines (gs : list Goroutine) (s : Runtime) : Runtime :=
  mkRuntime (client s) (fresh s) (closed s) (waitGroups s) gs (journal s) (debugLogs s).

(** The system after a piece of the program has run: a panic ends the
    process. *)
Definition after {A} (res : Outcome A * Runtime) (rs : list Reader) : System :=
  mkSystem (snd res) rs
           (match fst res with Panic msg => Some msg | _ => None end).

Inductive step (env : Env) : System -> System -> Prop :=
| step_attach sys filter :
    panicked sys = None -> readers sys = [] ->
    step env sys (after (AddEventsListener env filter (runtime sys)) [])
| step_detach sys channel :
    panicked sys = None -> readers sys = [] ->
    step env sys (after (RemoveEventsListener env channel (runtime sys)) [])
(* handleEvent, up to r.RLock() *)
| step_payload_rejected sys content err s' :
    panicked sys = None ->
    decode env content (runtime sys) = (Ok (inl err), s') ->
    step env sys (mkSystem s' (readers sys) None)
| step_payload_decoded sys content event s' :
    panicked sys = None ->
    decode env content (runtime sys) = (Ok (inr event), s') ->
    step env sys
         (mkSystem s'
            (readers sys ++ [mkReader event (map_to_list (listeners (client s')))])
            None)
(* one turn of the loop of handleEvent *)
| step_dispatch sys rs1 event entry todo rs2 :
    panicked sys = None ->
    readers sys = rs1 ++ mkReader event (entry :: todo) :: rs2 ->
    step env sys
         (after (dispatchOne event entry (runtime sys))
                (rs1 ++ mkReader event todo :: rs2))
(* the deferred r.RUnlock() *)
| step_runlock sys rs1 event rs2 :
    panicked sys = None ->
    readers sys = rs1 ++ mkReader event [] :: rs2 ->
    step env sys (mkSystem (runtime sys) (rs1 ++ rs2) None)
(* select: case ch <- e, with a receiver at the other end *)
| step_send sys gs1 ch context e gs2 :
    panicked sys = None ->
    goroutines (runtime sys) = gs1 ++ GDeliver ch context e :: gs2 ->
    ch ∉ closed (runtime sys) ->
    step env sys
         (mkSystem (setGoroutines (gs1 ++ GDelivered context :: gs2) (runtime sys))
                   (readers sys) None)
(* select: case ch <- e, on a closed channel *)
| step_send_closed sys gs1 ch context e gs2 :
    panicked sys = None ->
    goroutines (runtime sys) = gs1 ++ GDeliver ch context e :: gs2 ->
    ch ∈ closed (runtime sys) ->
    step env sys
         (mkSystem (runtime sys) (readers sys) (Some "send on closed channel"))
(* select: case <-context.done *)
| step_cancelled sys gs1 ch context e gs2 :
    panicked sys = None ->
    goroutines (runtime sys) = gs1 ++ GDeliver ch context e :: gs2 ->
    done context ∈ closed (runtime sys) ->
    step env sys
         (mkSystem (setGoroutines (gs1 ++ GDelivered context :: gs2) (runtime sys))
                   (readers sys) None)
(* the deferred context.completion.Done() *)
| step_done sys gs1 context gs2 :
    panicked sys = None ->
    goroutines (runtime sys) = gs1 ++ GDelivered context :: gs2 ->
    step env sys
         (after (wgAdd (completion context) (-1)
                       (setGoroutines (gs1 ++ gs2) (runtime sys)))
                (readers sys))
(* completion.Wait() returns *)
| step_wait sys gs1 completion channel gs2 :
    panicked sys = None ->
    goroutines (runtime sys) = gs1 ++ GFinalize completion channel :: gs2 ->
    counter (waitGroups (runtime sys)) completion = 0 ->
    step env sys
         (mkSystem (setGoroutines (gs1 ++ GClose channel :: gs2) (runtime sys))
                   (readers sys) None)
(* close(channel) *)
| step_close sys gs1 channel gs2 :
    panicked sys = None ->
    goroutines (runtime sys) = gs1 ++ GClose channel :: gs2 ->
    step env sys
         (after (close channel (setGoroutines (gs1 ++ gs2) (runtime sys)))
                (readers sys)).

Inductive reachable (env : Env) (cfg : Config) : System -> Prop :=
| reachable_initial : reachable env cfg (mkSystem (initial cfg) [] None)
| reachable_step sys sys' :
    reachable env cfg sys -> step env sys sys' -> reachable env cfg sys'.

(** Deliveries in flight on a wait group: started and not yet [Done]. *)
Definition inFlightOn (w : nat) (g : Goroutine) : nat :=
  match g with
  | GDeliver _ context _ | GDelivered context =>
      if decide (completion context = w) then 1 else 0
  | _ => 0
  end.

Definition inFlight (w : nat) (gs : list Goroutine) : nat :=
  sum_list_with (inFlightOn w) gs.

(** The deliveries the loop of [handleEvent] starts for [event] over
    the registry entries [entries]. *)
Definition deliveries (event : Event) (entries : list (nat * EventsChannelContext))
  : list Goroutine :=
  flat_map (fun entry : nat * EventsChannelContext =>
              if Z.land (ID event) (filter entry.2) =? 0 then []
              else [GDeliver entry.1 entry.2 event])
           entries.

(** The wait group counters after that loop. *)
Fixpoint counted (event : Event) (entries : list (nat * EventsChannelContext))
         (wgs : gmap nat Z) : gmap nat Z :=
  match entries with
  | [] => wgs
  | entry :: rest =>
      counted event rest
        (if Z.land (ID event) (filter entry.2) =? 0 then wgs
         else <[completion entry.2 := counter wgs (completion entry.2) + 1]> wgs)
  end.

(** No wait group counts below zero. *)
Definition nonNegative (s : Runtime) : Prop :=
  forall w, 0 <= counter (waitGroups s) w.

(** The contents handed to the JSON decoder, in order. *)
Definition decodeAttempts (calls : list Call) : list string :=
  flat_map (fun c => match c with CJsonDecode content => [content] | _ => [] end) calls.

(** The supervision loops of the SSE transport among the goroutines. *)
Definition supervisors (gs : list Goroutine) : nat :=
  sum_list_with (fun g => match g with GSSE => 1%nat | _ => 0%nat end) gs.

(** *** Coherence of the runtime

    What holds of the registry [L], the next free handle [n], the
    closed channels [C], the wait groups [W], the goroutines [gs] and
    the readers [rs] in every state the system reaches. *)

(** A handle made first of the three that [AddEventsListener] makes:
    an event channel. *)
Definition isChannel (h : nat) : Prop := exists k, h = (3 * k)%nat.

Definition wfGoroutine (n : nat) (C : gset nat) (W : gmap nat Z) (g : Goroutine) : Prop :=
  match g with
  | GDeliver ch context _ =>
      isChannel ch /\ completion context = S (S ch) /\ (ch < n)%nat /\ ch ∉ C
  | GFinalize w ch => isChannel ch /\ w = S (S ch) /\ (ch < n)%nat
  | GClose ch => isChannel ch /\ (ch < n)%nat /\ counter W (S (S ch)) = 0
  | GDelivered _ | GServe _ | GSSE => True
  end.

(** The finalizers of a channel among the goroutines. *)
Definition finalizing (channel : nat) (g : Goroutine) : nat :=
  match g with
  | GFinalize _ ch | GClose ch => if decide (ch = channel) then 1 else 0
  | _ => 0
  end.

Definition finalizers (channel : nat) (gs : list Goroutine) : nat :=
  sum_list_with (finalizing channel) gs.

Definition registered (L : gmap nat EventsChannelContext) (channel : nat) : nat :=
  match L !! channel with Some _ => 1 | None => 0 end.

Definition shut (C : gset nat) (channel : nat) : nat :=
  if decide (channel ∈ C) then 1 else 0.

Record coherent (L : gmap nat EventsChannelContext) (n : nat) (C : gset nat)
       (W : gmap nat Z) (gs : list Goroutine) (rs : list Reader) : Prop := mkCoherent {
  co_fresh : isChannel n;
  co_closed : forall h, h ∈ C -> (h < n)%nat;
  co_registry : forall ch context,
      L !! ch = Some context ->
      isChannel ch /\ done context = S ch /\ completion context = S (S ch)
      /\ (S (S ch) < n)%nat /\ S ch ∉ C;
  co_readers : forall rd entry,
      rd ∈ rs -> entry ∈ readerTodo rd -> L !! entry.1 = Some entry.2;
  co_goroutines : Forall (wfGoroutine n C W) gs;
  co_count : forall w, counter W w = Z.of_nat (inFlight w gs);
  (* a channel is registered, or being finalized by one goroutine, or
     closed, and never two of these *)
  co_phase : forall ch, (registered L ch + finalizers ch gs + shut C ch <= 1)%nat
}.

Definition invariant (sys : System) : Prop :=
  panicked sys = None
  /\ coherent (listeners (client (runtime sys))) (fresh (runtime sys))
              (closed (runtime sys)) (waitGroups (runtime sys))
              (goroutines (runtime sys)) (readers sys).

(** The wait group [AddEventsListener] makes along with a channel: the
    channel, its [done] and its [completion] are made one after the
    other. *)
Definition waitGroupOf (channel : nat) : nat := S (S channel).

(** *** A run of the system

    One subscriber attaches (channel 0, filter 6); a deployment event
    is decoded and dispatched to it; the subscriber detaches while the
    delivery is in flight; the delivery sees the cancellation and is
    done; the finalizer wakes up and closes the channel. *)
Definition runContext : EventsChannelContext := mkContext 6 1 2.
Definition runEvent : Event := mkEvent 4 "deployment_info" "deployment_info".

Definition run0 : System := mkSystem (initial (pushConfig 8080)) [] None.
Definition run1 : System := after (AddEventsListener sampleEnv 6 (runtime run0)) [].
Definition run2 : System :=
  mkSystem (exec (decode sampleEnv "deployment_info") (runtime run1))
           (readers run1
              ++ [mkReader runEvent
                    (map_to_list
                       (listeners
                          (client (exec (decode sampleEnv "deployment_info")
                                        (runtime run1)))))])
           None.
Definition run3 : System :=
  after (dispatchOne runEvent (0%nat, runContext) (runtime run2))
        ([] ++ mkReader runEvent [] :: []).
Definition run4 : System := mkSystem (runtime run3) ([] ++ []) None.
Definition run5 : System := after (RemoveEventsListener sampleEnv 0 (runtime run4)) [].
Definition run6 : System :=
  mkSystem (setGoroutines
              ([GServe "10.0.0.7:8080"] ++ GDelivered runContext :: [GFinalize 2 0])
              (runtime run5))
           (readers run5) None.
Definition run7 : System :=
  after (wgAdd (completion runContext) (-1)
               (setGoroutines ([GServe "10.0.0.7:8080"] ++ [GFinalize 2 0])
                              (runtime run6)))
        (readers run6).
Definition run8 : System :=
  mkSystem (setGoroutines ([GServe "10.0.0.7:8080"] ++ GClose 0 :: []) (runtime run7))
           (readers run7) None.
Definition run9 : System :=
  after (close 0 (setGoroutines ([GServe "10.0.0.7:8080"] ++ []) (runtime run8)))
        (readers run8).

(** *** Vocabulary for the properties of the transports and the dispatcher *)

(** The channel a delivery goroutine may send on. *)
Definition deliveryChannel (g : Goroutine) : option nat :=
  match g with
  | GDeliver ch _ _ => Some ch
  | _ => None
  end.

(** The channels of the deliveries among the goroutines, in order. *)
Definition targets (gs : list Goroutine) : list nat := omap deliveryChannel gs.

Definition isDelivery (g : Goroutine) : Prop :=
  match g with
  | GDeliver _ _ _ => True
  | _ => False
  end.

(** The server loops of the callback transport among the goroutines. *)
Definition servers (gs : list Goroutine) : nat :=
  sum_list_with (fun g => match g with GServe _ => 1%nat | _ => 0%nat end) gs.

(** The calls [connectToSSE] makes. *)
Definition isConnectCall (c : Call) : Prop :=
  match c with
  | CBuildAPIRequest _ _ | CSubscribeWith _ => True
  | _ => False
  end.

(** What the code that receives events leaves alone: the registry and
    the rest of the client but the member health, the handles, the
    closed channels; the goroutines it starts are deliveries. *)
Record keepsRegistry (s s' : Runtime) : Prop := mkKeepsRegistry {
  kr_listeners : listeners (client s') = listeners (client s);
  kr_eventsHTTP : eventsHTTP (client s') = eventsHTTP (client s);
  kr_subscribed : subscribedToSSE (client s') = subscribedToSSE (client s);
  kr_fresh : fresh s' = fresh s;
  kr_closed : closed s' = closed s;
  kr_goroutines :
    exists started,
      goroutines s' = goroutines s ++ started /\ Forall isDelivery started
}.

(** Every delivery that may still send is either to a subscriber still
    registered under the context the delivery carries, or can take the
    cancellation case of its [select]. *)
Definition cancellable (sys : System) : Prop :=
  forall ch context e,
    GDeliver ch context e ∈ goroutines (runtime sys) ->
    listeners (client (runtime sys)) !! ch = Some context
    \/ done context ∈ closed (runtime sys).

(** [needle] occurs in [hay]. *)
Definition contains (needle hay : string) : Prop :=
  exists before behind, hay = before +:+ needle +:+ behind.

(** ** Frame properties of the one-time transport setup *)

(** Goroutines of the transports, as opposed to those of the dispatcher. *)
Definition isTransport (g : Goroutine) : Prop :=
  match g with
  | GServe _ | GSSE => True
  | _ => False
  end.

Ltac unfold_m :=
  unfold modifyClient, putClient, getClient, record, debugLog, go, alloc, now,
    ret, bind, panic, pending in *.

Ltac run_setup :=
  unfold registerSubscription, registerCallbackSubscription, bindEventsHTTP,
    registerSSESubscription, HasSubscription, Subscriptions, Subscribe in *;
  unfold_m; simpl in *.

(** The setup never panics or blocks, and touches neither the listener
    registry nor the channels, wait groups and handles; the goroutines
    it starts are those of a transport. *)
Lemma registerSubscription_frame env s o s' :
  registerSubscription env s = (o, s') ->
  (exists failed, o = Ok failed)
  /\ listeners (client s') = listeners (client s)
  /\ config (client s') = config (client s)
  /\ fresh s' = fresh s
  /\ closed s' = closed s
  /\ waitGroups s' = waitGroups s
  /\ exists extra, goroutines s' = goroutines s ++ extra /\ Forall isTransport extra.
Proof.
  intros H. run_setup.
  repeat case_match; simplify_eq; simpl;
    (split; [eauto|]); repeat (split; [reflexivity|]);
    first [ exists []; split; [by rewrite app_nil_r | constructor]
          | eexists [_]; split; [reflexivity | repeat constructor] ].
Qed.

(** [AddEventsListener] in terms of the setup it runs first. *)
Lemma AddEventsListener_unfold env f s :
  exists failed s1,
    registerSubscription env s = (Ok failed, s1)
    /\ AddEventsListener env f s =
       match failed with
       | Some err => (Ok (inl err), s1)
       | None =>
           (Ok (inr (fresh s1)),
            mkRuntime
              (setListeners
                 (<[fresh s1 := mkContext f (S (fresh s1)) (S (S (fresh s1)))]>
                    (listeners (client s1)))
                 (client s1))
              (S (S (S (fresh s1)))) (closed s1) (waitGroups s1)
              (goroutines s1) (journal s1) (debugLogs s1))
       end.
Proof.
  destruct (registerSubscription env s) as [o s1] eqn:E.
  destruct (registerSubscription_frame _ _ _ _ E) as [[failed ->] _].
  exists failed, s1. split; [done|].
  unfold AddEventsListener, bind at 1. rewrite E.
  destruct failed; [done|]. by unfold_m.
Qed.

(** A failed attach leaves the registry as it was. *)
Lemma AddEventsListener_failure_keeps_registry env f s err s' :
  AddEventsListener env f s = (Ok (inl err), s') ->
  listeners (client s') = listeners (client s).
Proof.
  intros H. destruct (AddEventsListener_unfold env f s) as (failed & s1 & E & U).
  rewrite U in H. destruct (registerSubscription_frame _ _ _ _ E) as (_ & L & _).
  destruct failed; simplify_eq. done.
Qed.

(** C4: an attach under a transport that is neither the callback nor
    the SSE transport returns an error whose message contains the
    transport identifier (printed by [%d]) and changes nothing; and
    whenever the setup fails, that is [registerSubscription] returns an
    error, under any transport, [AddEventsListener] returns that error
    and the registry holds the same subscribers as before. *)
Theorem AddEventsListener_unsupported_transport env f s :
  EventsTransport (config (client s)) ≠ EventsTransportCallback env ->
  EventsTransport (config (client s)) ≠ EventsTransportSSE env ->
  (exists msg,
      AddEventsListener env f s = (Ok (inl (errorString msg)), s)
      /\ contains (pretty (EventsTransport (config (client s)))) msg)
  /\ (forall f' s0 err s1,
        registerSubscription env s0 = (Ok (Some err), s1) ->
        AddEventsListener env f' s0 = (Ok (inl err), s1)
        /\ listeners (client s1) = listeners (client s0))
  /\ (forall f' s0 err s1,
        AddEventsListener env f' s0 = (Ok (inl err), s1) ->
        listeners (client s1) = listeners (client s0)).
Proof.
  intros Hcb Hsse. split; [|split].
  - eexists. split.
    + unfold AddEventsListener, registerSubscription. unfold_m.
      destruct (Z.eqb_spec (EventsTransport (config (client s)))
                           (EventsTransportCallback env)); [done|].
      destruct (Z.eqb_spec (EventsTransport (config (client s)))
                           (EventsTransportSSE env)); [done|].
      reflexivity.
    + by exists "the events transport: ", " is not supported".
  - intros f' s0 err s1 Hsetup. split.
    + unfold AddEventsListener, bind. by rewrite Hsetup.
    + by destruct (registerSubscription_frame _ _ _ _ Hsetup) as (_ & ? & _).
  - intros. by eapply AddEventsListener_failure_keeps_registry.
Qed.

Lemma AddEventsListener_unsupported_transport_witness :
  exists msg,
    AddEventsListener sampleEnv 6 (initial (mkConfig 7 "" 0 ""))
    = (Ok (inl (errorString msg)), initial (mkConfig 7 "" 0 ""))
    /\ contains "7" msg.
Proof.
  apply (AddEventsListener_unsupported_transport
           sampleEnv 6 (initial (mkConfig 7 "" 0 ""))); by vm_compute.
Defined.

(** C3, on the code: under the callback transport, on the first attach,
    when the interface resolves and binding the listener fails,
    [AddEventsListener] returns a channel and a nil error; the
    subscriber is registered, no server goroutine runs and the callback
    is not registered with Marathon. *)
Theorem AddEventsListener_bind_failure_returns_nil env f s ip err :
  EventsTransport (config (client s)) = EventsTransportCallback env ->
  eventsHTTP (client s) = None ->
  (forall t, getInterfaceAddress env t (EventsInterface (config (client s))) = inr ip) ->
  (forall t, netListen env t (ip +:+ ":" +:+ pretty (EventsPort (config (client s))))
             = Some err) ->
  exists s',
    AddEventsListener env f s = (Ok (inr (fresh s)), s')
    /\ listeners (client s') !! fresh s
       = Some (mkContext f (S (fresh s)) (S (S (fresh s))))
    /\ goroutines s' = goroutines s
    /\ journal s' = journal s
         ++ [CGetInterfaceAddress (EventsInterface (config (client s)));
             CHandleFunc (defaultEventsURL env);
             CNetListen (ip +:+ ":" +:+ pretty (EventsPort (config (client s))))].
Proof.
  intros Ht Hnil Hip Hbind. eexists.
  unfold AddEventsListener. run_setup.
  rewrite Ht, Z.eqb_refl, Hnil, Hip. simpl. rewrite Hbind. simpl.
  split; [reflexivity|]. simpl.
  split; [apply lookup_insert_eq|].
  split; [reflexivity|]. by rewrite <- !app_assoc.
Qed.

Lemma AddEventsListener_bind_failure_returns_nil_witness :
  exists s',
    AddEventsListener sampleEnv 2 (initial (pushConfig 0)) = (Ok (inr 0%nat), s')
    /\ listeners (client s') !! 0%nat = Some (mkContext 2 1 2)
    /\ goroutines s' = []
    /\ journal s' = [CGetInterfaceAddress "eth0"; CHandleFunc "/event";
                     CNetListen "10.0.0.7:0"].
Proof.
  apply (AddEventsListener_bind_failure_returns_nil
           sampleEnv 2 (initial (pushConfig 0)) "10.0.0.7"
           (foreignError "listen tcp: address already in use"));
    intros; by vm_compute.
Defined.

(** [RemoveEventsListener] on a registered channel whose [done] is
    still open. *)
Lemma RemoveEventsListener_found env channel s context :
  listeners (client s) !! channel = Some context ->
  done context ∉ closed s ->
  RemoveEventsListener env channel s =
  (Ok tt,
   mkRuntime
     (setListeners (delete channel (listeners (client s))) (client s))
     (fresh s) ({[done context]} ∪ closed s) (waitGroups s)
     (goroutines s ++ [GFinalize (completion context) channel])
     (journal s ++
        if (EventsTransport (config (client s)) =? EventsTransportCallback env)
             && (size (delete channel (listeners (client s))) =? 0)%nat
        then [CApiDelete (marathonAPISubscription env +:+ "?callbackUrl="
                            +:+ SubscriptionURL env (client s))]
        else [])
     (debugLogs s)).
Proof.
  intros Hfound Hopen. unfold RemoveEventsListener, close, Unsubscribe. unfold_m.
  rewrite Hfound. simpl. rewrite decide_False by done. simpl.
  destruct (_ && _); simpl; [done|]. by rewrite app_nil_r.
Qed.

(** C6: under the callback transport, removing the only registered
    subscriber appends exactly one unregister call (the DELETE of the
    callback URL) to the journal; removing one of several appends
    nothing. *)
Theorem RemoveEventsListener_unregisters_on_last env channel s context :
  EventsTransport (config (client s)) = EventsTransportCallback env ->
  listeners (client s) !! channel = Some context ->
  done context ∉ closed s ->
  exists s',
    RemoveEventsListener env channel s = (Ok tt, s')
    /\ (size (listeners (client s)) = 1%nat ->
        journal s' = journal s
          ++ [CApiDelete (marathonAPISubscription env +:+ "?callbackUrl="
                            +:+ SubscriptionURL env (client s))])
    /\ (size (listeners (client s)) ≠ 1%nat -> journal s' = journal s).
Proof.
  intros Ht Hfound Hopen. eexists. split.
  { by apply RemoveEventsListener_found. }
  simpl. rewrite Ht, Z.eqb_refl. simpl.
  rewrite map_size_delete_Some by eauto.
  split; intros Hsize.
  - by rewrite Hsize.
  - destruct (Nat.eqb_spec (Nat.pred (size (listeners (client s)))) 0) as [E|E].
    + assert (size (listeners (client s)) ≠ 0%nat).
      { apply map_size_non_empty_iff. intros Hempty.
        rewrite Hempty in Hfound. by rewrite lookup_empty in Hfound. }
      lia.
    + by rewrite app_nil_r.
Qed.

Lemma RemoveEventsListener_unregisters_on_last_witness :
  (exists s', RemoveEventsListener sampleEnv 3 pushTwo = (Ok tt, s')
              /\ journal s' = journal pushTwo)
  /\ (exists s', RemoveEventsListener sampleEnv 0 pushOne = (Ok tt, s')
                 /\ journal s' = journal pushOne
                      ++ [CApiDelete
                            "v2/eventSubscriptions?callbackUrl=http://10.0.0.7:8080/event"]).
Proof.
  split.
  - destruct (RemoveEventsListener_unregisters_on_last
                sampleEnv 3%nat pushTwo (mkContext 6 4 5)) as (s' & E & _ & Hmany);
      [by vm_compute | by vm_compute | vm_compute; set_solver |].
    exists s'. split; [exact E|]. apply Hmany. by vm_compute.
  - destruct (RemoveEventsListener_unregisters_on_last
                sampleEnv 0%nat pushOne (mkContext 2 1 2)) as (s' & E & Hlast & _);
      [by vm_compute | by vm_compute | vm_compute; set_solver |].
    exists s'. split; [exact E|]. apply Hlast. by vm_compute.
Defined.

(** C10: removing a channel that is not registered changes nothing at
    all: the registry, the closed channels, the goroutines and the
    journal are the same; and after a removal that went through, a
    second removal of the same channel is such a no-op. *)
Theorem RemoveEventsListener_unknown_is_noop env channel s :
  (listeners (client s) !! channel = None ->
   RemoveEventsListener env channel s = (Ok tt, s))
  /\ (forall s1,
        RemoveEventsListener env channel s = (Ok tt, s1) ->
        listeners (client s1) !! channel = None
        /\ RemoveEventsListener env channel s1 = (Ok tt, s1)).
Proof.
  assert (Hnoop : forall s0, listeners (client s0) !! channel = None ->
                             RemoveEventsListener env channel s0 = (Ok tt, s0)).
  { intros s0 Hnone. unfold RemoveEventsListener. unfold_m. by rewrite Hnone. }
  split; [apply Hnoop|].
  intros s1 Hrun.
  assert (listeners (client s1) !! channel = None) as Hgone.
  { destruct (listeners (client s) !! channel) as [context|] eqn:Hfound.
    - destruct (decide (done context ∈ closed s)) as [Hclosed|Hopen].
      + unfold RemoveEventsListener, close in Hrun. unfold_m.
        rewrite Hfound in Hrun. simpl in Hrun.
        by rewrite decide_True in Hrun by done.
      + rewrite (RemoveEventsListener_found _ _ _ _ Hfound Hopen) in Hrun.
        simplify_eq. simpl. apply lookup_delete_eq.
    - rewrite (Hnoop s Hfound) in Hrun. by simplify_eq. }
  split; [done | by apply Hnoop].
Qed.

Lemma RemoveEventsListener_unknown_is_noop_witness :
  RemoveEventsListener sampleEnv 9 pushTwo = (Ok tt, pushTwo)
  /\ RemoveEventsListener sampleEnv 3
       (exec (RemoveEventsListener sampleEnv 3) pushTwo)
     = (Ok tt, exec (RemoveEventsListener sampleEnv 3) pushTwo).
Proof.
  split.
  - apply (RemoveEventsListener_unknown_is_noop sampleEnv 9%nat pushTwo).
    by vm_compute.
  - apply (RemoveEventsListener_unknown_is_noop sampleEnv 3%nat pushTwo).
    by vm_compute.
Defined.

(** ** Dispatch *)

Lemma counter_insert wgs w n w' :
  counter (<[w := n]> wgs) w' = if decide (w = w') then n else counter wgs w'.
Proof.
  unfold counter. rewrite lookup_insert. by case_decide.
Qed.

Lemma counted_nonneg event entries wgs :
  (forall w, 0 <= counter wgs w) -> forall w, 0 <= counter (counted event entries wgs) w.
Proof.
  revert wgs. induction entries as [|entry rest IH]; intros wgs Hwgs; [done|].
  simpl. apply IH. destruct (_ =? 0); [done|].
  intros w. rewrite counter_insert. case_decide; [|done].
  specialize (Hwgs (completion entry.2)). lia.
Qed.

(** With no counter below zero the loop of [handleEvent] runs through:
    it starts exactly [deliveries] and touches nothing but the wait
    groups and the goroutines. *)
Lemma dispatchAll_spec event entries s :
  nonNegative s ->
  dispatchAll event entries s =
  (Ok tt,
   mkRuntime (client s) (fresh s) (closed s) (counted event entries (waitGroups s))
             (goroutines s ++ deliveries event entries) (journal s) (debugLogs s)).
Proof.
  revert s. induction entries as [|[channel context] rest IH]; intros s Hs.
  - simpl. unfold ret. rewrite app_nil_r. by destruct s.
  - cbn [dispatchAll]. unfold bind at 1. unfold dispatchOne.
    cbn [deliveries flat_map counted fst snd].
    destruct (Z.land (ID event) (filter context) =? 0) eqn:E.
    + unfold ret. by rewrite IH.
    + unfold wgAdd, go, bind.
      pose proof (Hs (completion context)) as Hc.
      destruct (Z.ltb_spec (counter (waitGroups s) (completion context) + 1) 0);
        [lia|].
      rewrite IH.
      * simpl. by rewrite <- app_assoc.
      * intros w. simpl. rewrite counter_insert. case_decide; [lia | apply Hs].
Qed.

(** The deliveries started for a channel are those of its registry
    entry, when the filter meets the identity of the event. *)
Lemma elem_of_deliveries (L : gmap nat EventsChannelContext) event channel context e :
  GDeliver channel context e ∈ deliveries event (map_to_list L)
  <-> L !! channel = Some context /\ e = event
      /\ Z.land (ID event) (filter context) ≠ 0.
Proof.
  unfold deliveries. rewrite list_elem_of_In, in_flat_map. split.
  - intros ([ch ctx] & Hin & Hg). simpl in Hg.
    apply list_elem_of_In, elem_of_map_to_list in Hin.
    destruct (Z.eqb_spec (Z.land (ID event) (filter ctx)) 0) as [|Hne];
      [by destruct Hg|].
    destruct Hg as [Hg|[]]. by simplify_eq.
  - intros (Hfound & -> & Hne). exists (channel, context). split.
    + by apply list_elem_of_In, elem_of_map_to_list.
    + simpl. destruct (Z.eqb_spec (Z.land (ID event) (filter context)) 0); [done|].
      by left.
Qed.

(** Decoding returns, and leaves the runtime as it was but for the
    journal, which gains one decoder call (envelope) or two (envelope
    and payload); what it returns depends on the content alone. *)
Lemma decode_frame env content :
  exists decoded calls,
    (forall s, decode env content s = (Ok decoded, setJournal (journal s ++ calls) s))
    /\ (exists more, calls = CJsonDecode content :: more)
    /\ (forall tag err,
          decodeEventType env content = inr tag -> GetEvent env tag = inl err ->
          calls = [CJsonDecode content]
          /\ decoded = inl (errorString ("unable to handle event, type: " +:+ tag
                                           +:+ ", error: " +:+ Error err))).
Proof.
  unfold decode. unfold_m. simpl.
  destruct (decodeEventType env content) as [e1|tag] eqn:E1.
  { eexists _, _. split; [reflexivity|]. split; [by eexists|]. by intros ?? [=]. }
  destruct (GetEvent env tag) as [e2|known] eqn:E2.
  { eexists _, _. split; [reflexivity|]. split; [by eexists|].
    intros ?? [= <-] E. rewrite E in E2. by simplify_eq. }
  simpl. destruct (decodeEvent env content known) as [e3|data] eqn:E3.
  - eexists _, [_; _]. unfold setJournal.
    split; [intros s; rewrite <- app_assoc; reflexivity|].
    split; [by eexists|]. intros ?? [= <-] E. rewrite E in E2. by simplify_eq.
  - eexists _, [_; _]. unfold setJournal.
    split; [intros s; rewrite <- app_assoc; reflexivity|].
    split; [by eexists|]. intros ?? [= <-] E. rewrite E in E2. by simplify_eq.
Qed.

(** [handleEvent] on a payload that decodes. *)
Lemma handleEvent_decoded env content event s sd :
  decode env content s = (Ok (inr event), sd) ->
  nonNegative s ->
  handleEvent env content s =
  (Ok None,
   mkRuntime (client s) (fresh s) (closed s)
             (counted event (map_to_list (listeners (client s))) (waitGroups s))
             (goroutines s ++ deliveries event (map_to_list (listeners (client s))))
             (journal sd) (debugLogs s)).
Proof.
  intros Hdec Hs. unfold handleEvent, bind at 1. rewrite Hdec.
  destruct (decode_frame env content) as (d & calls & E & _ & _).
  rewrite E in Hdec. simplify_eq.
  unfold bind, getClient. rewrite dispatchAll_spec by done. reflexivity.
Qed.

(** [handleEvent] on a payload that does not decode: the error comes
    back and nothing but the journal has changed. *)
Lemma handleEvent_rejected env content err s sd :
  decode env content s = (Ok (inl err), sd) ->
  handleEvent env content s = (Ok (Some err), sd).
Proof.
  intros Hdec. unfold handleEvent, bind. by rewrite Hdec.
Qed.

(** A subscriber attached by [AddEventsListener] sits in the registry
    under the channel returned, with the filter given. *)
Lemma AddEventsListener_registers env f s channel s' :
  AddEventsListener env f s = (Ok (inr channel), s') ->
  exists context,
    listeners (client s') !! channel = Some context /\ filter context = f.
Proof.
  intros H. destruct (AddEventsListener_unfold env f s) as (failed & s1 & _ & U).
  rewrite U in H. destruct failed; simplify_eq. simpl.
  eexists. split; [apply lookup_insert_eq | done].
Qed.

(** C1: a subscriber attached with filter [f] is registered with that
    filter, and in any runtime where it is registered, a payload that
    decodes to an event of identity [i] makes [handleEvent] start a
    delivery of that event to the subscriber's channel exactly when
    [f & i] is not zero. *)
Theorem handleEvent_delivers_iff_filter_meets env f s0 channel s1 :
  AddEventsListener env f s0 = (Ok (inr channel), s1) ->
  exists context,
    listeners (client s1) !! channel = Some context
    /\ filter context = f
    /\ forall s content event sd,
        listeners (client s) !! channel = Some context ->
        nonNegative s ->
        decode env content s = (Ok (inr event), sd) ->
        exists s' started,
          handleEvent env content s = (Ok None, s')
          /\ goroutines s' = goroutines s ++ started
          /\ (GDeliver channel context event ∈ started
              <-> Z.land f (ID event) ≠ 0)
          /\ (forall context' e, GDeliver channel context' e ∈ started ->
                context' = context /\ e = event).
Proof.
  intros Hadd.
  destruct (AddEventsListener_registers _ _ _ _ _ Hadd) as (context & Hreg & Hf).
  exists context. split; [done|]. split; [done|].
  intros s content event sd Hfound Hs Hdec.
  eexists _, _. split; [by eapply handleEvent_decoded|].
  split; [reflexivity|]. split.
  - rewrite elem_of_deliveries, Z.land_comm, Hf.
    split; [by intros (_ & _ & ?) | by intros ?].
  - intros context' e [H1 [H2 _]]%elem_of_deliveries. split; congruence.
Qed.

Lemma nonNegative_pushTwo : nonNegative pushTwo.
Proof. intros w. by vm_compute. Qed.

Lemma handleEvent_delivers_iff_filter_meets_witness :
  exists context,
    listeners (client pushTwo) !! 3%nat = Some context
    /\ filter context = 6
    /\ exists s' started,
        handleEvent sampleEnv "deployment_info" pushTwo = (Ok None, s')
        /\ goroutines s' = goroutines pushTwo ++ started
        /\ GDeliver 3 context (mkEvent 4 "deployment_info" "deployment_info") ∈ started.
Proof.
  destruct (handleEvent_delivers_iff_filter_meets sampleEnv 6 pushOne 3%nat pushTwo)
    as (context & Hreg & Hf & Hall); [by vm_compute|].
  exists context. split; [done|]. split; [done|].
  destruct (Hall pushTwo "deployment_info"
                 (mkEvent 4 "deployment_info" "deployment_info")
                 (setJournal (journal pushTwo
                                ++ [CJsonDecode "deployment_info";
                                    CJsonDecode "deployment_info"]) pushTwo)
                 Hreg nonNegative_pushTwo)
    as (s' & started & Hrun & Hgs & Hiff & _); [by vm_compute|].
  exists s', started. split; [done|]. split; [done|].
  apply Hiff. by vm_compute.
Defined.

(** ** Payloads that are not dispatched *)

Lemma ignoresJournal_ret {A} (a : A) : ignoresJournal (ret a).
Proof. done. Qed.

Lemma ignoresJournal_bind {A B} (m : M A) (f : A -> M B) :
  ignoresJournal m -> (forall a, ignoresJournal (f a)) -> ignoresJournal (bind m f).
Proof.
  intros Hm Hf calls s. unfold bind. rewrite Hm.
  destruct (m s) as [[a|msg|] s1]; simpl; [apply Hf | done | done].
Qed.

Lemma ignoresJournal_wgAdd w delta : ignoresJournal (wgAdd w delta).
Proof.
  intros calls s. unfold wgAdd. simpl.
  by destruct (counter (waitGroups s) w + delta <? 0).
Qed.

Lemma ignoresJournal_go g : ignoresJournal (go g).
Proof. done. Qed.

(** The loop of [handleEvent] neither reads nor writes the journal. *)
Lemma dispatchAll_journal event entries : ignoresJournal (dispatchAll event entries).
Proof.
  induction entries as [|[channel context] rest IH]; [apply ignoresJournal_ret|].
  cbn [dispatchAll]. apply ignoresJournal_bind; [|done].
  unfold dispatchOne. destruct (_ =? 0); [apply ignoresJournal_ret|].
  apply ignoresJournal_bind; [apply ignoresJournal_wgAdd|].
  intros _. apply ignoresJournal_go.
Qed.

(** [handleEvent] as decoding followed by the dispatch loop. *)
Lemma handleEvent_unfold env content :
  exists decoded more,
    (forall s, decode env content s = (Ok decoded, setJournal (journal s ++ more) s))
    /\ forall s,
        handleEvent env content s =
        match decoded with
        | inl err => (Ok (Some err), setJournal (journal s ++ more) s)
        | inr event =>
            (dispatchAll event (map_to_list (listeners (client s)));;; ret None)
              (setJournal (journal s ++ more) s)
        end.
Proof.
  destruct (decode_frame env content) as (decoded & more & E & _).
  exists decoded, more. split; [done|]. intros s.
  unfold handleEvent. unfold bind at 1. rewrite E. by destruct decoded.
Qed.

(** What [handleEvent] returns and what it does to the client, the
    channels, the wait groups and the goroutines does not depend on
    the journal it starts from. *)
Lemma handleEvent_journal env content calls s :
  fst (handleEvent env content (setJournal calls s)) = fst (handleEvent env content s)
  /\ client (exec (handleEvent env content) (setJournal calls s))
     = client (exec (handleEvent env content) s)
  /\ closed (exec (handleEvent env content) (setJournal calls s))
     = closed (exec (handleEvent env content) s)
  /\ waitGroups (exec (handleEvent env content) (setJournal calls s))
     = waitGroups (exec (handleEvent env content) s)
  /\ goroutines (exec (handleEvent env content) (setJournal calls s))
     = goroutines (exec (handleEvent env content) s).
Proof.
  destruct (handleEvent_unfold env content) as (decoded & more & _ & U).
  unfold exec. rewrite !U. destruct decoded as [err|event]; [done|].
  assert (ignoresJournal
            (dispatchAll event (map_to_list (listeners (client s)));;;
             ret (@None error))) as Hm.
  { apply ignoresJournal_bind; [apply dispatchAll_journal|].
    intros _. apply ignoresJournal_ret. }
  change (client (setJournal calls s)) with (client s).
  change (setJournal (journal (setJournal calls s) ++ more) (setJournal calls s))
    with (setJournal (calls ++ more) s).
  rewrite !Hm. done.
Qed.

(** C5: a payload whose envelope decodes to a tag the catalogue does
    not know makes [handleEvent] return the unknown-event error; the
    only trace it leaves is the decoder call in the journal, so no
    delivery is started and no counter moves; the SSE read loop goes on
    with the rest of the stream; and any next payload is handled with
    the same result, the same deliveries and the same counters as if
    the unknown one had never come. *)
Theorem handleEvent_unknown_event env content tag err s :
  decodeEventType env content = inr tag ->
  GetEvent env tag = inl err ->
  let unknown :=
    errorString ("unable to handle event, type: " +:+ tag +:+ ", error: " +:+ Error err) in
  let s' := setJournal (journal s ++ [CJsonDecode content]) s in
  handleEvent env content s = (Ok (Some unknown), s')
  /\ goroutines s' = goroutines s
  /\ waitGroups s' = waitGroups s
  /\ client s' = client s
  /\ (forall rest,
        listenToSSE env (SEvent content :: rest) s
        = listenToSSE env rest
            (setDebugLogs
               (debugLogs s ++ ["listenToSSE(): failed to handle event: " +:+ Error unknown])
               s'))
  /\ (forall next,
        fst (handleEvent env next s') = fst (handleEvent env next s)
        /\ goroutines (exec (handleEvent env next) s')
           = goroutines (exec (handleEvent env next) s)
        /\ waitGroups (exec (handleEvent env next) s')
           = waitGroups (exec (handleEvent env next) s)
        /\ client (exec (handleEvent env next) s')
           = client (exec (handleEvent env next) s)).
Proof.
  intros Htag Hunknown unknown s'.
  assert (handleEvent env content s = (Ok (Some unknown), s')) as Hrun.
  { destruct (decode_frame env content) as (decoded & calls & E & _ & Hcase).
    destruct (Hcase tag err Htag Hunknown) as [-> ->].
    by apply handleEvent_rejected. }
  split; [done|]. repeat (split; [reflexivity|]). split.
  - intros rest. cbn [listenToSSE]. unfold bind at 1. rewrite Hrun.
    unfold bind, debugLog. reflexivity.
  - intros next.
    destruct (handleEvent_journal env next (journal s ++ [CJsonDecode content]) s)
      as (H1 & H2 & _ & H4 & H5).
    done.
Qed.

Lemma handleEvent_unknown_event_witness :
  handleEvent sampleEnv "bogus" pushTwo
  = (Ok (Some (errorString
       ("unable to handle event, type: bogus, error: "
          +:+ "the event type: bogus was not found or supported"))),
     setJournal (journal pushTwo ++ [CJsonDecode "bogus"]) pushTwo)
  /\ fst (handleEvent sampleEnv "deployment_info"
            (setJournal (journal pushTwo ++ [CJsonDecode "bogus"]) pushTwo))
     = fst (handleEvent sampleEnv "deployment_info" pushTwo).
Proof.
  destruct (handleEvent_unknown_event sampleEnv "bogus" "bogus"
              (errorString "the event type: bogus was not found or supported")
              pushTwo) as (Hrun & _ & _ & _ & _ & Hnext);
    [by vm_compute | by vm_compute |].
  split; [exact Hrun|]. apply Hnext.
Defined.

(** ** The intake handler of the callback transport *)

(** C7, as stated, fails on an empty body: the handler has no guard on
    the length of the body, so the empty content is handed to
    [handleEvent], which calls the JSON decoder on it. *)
Lemma handleCallbackEvent_empty_body_is_decoded :
  ~ (decodeAttempts
       (journal (exec (handleCallbackEvent sampleEnv (mkWriter None "") (inr "")) pushTwo))
     = decodeAttempts (journal pushTwo)).
Proof. by vm_compute. Qed.

(** C7, amended: a body that was read, empty or not, is handed to
    [handleEvent], whose first act is a decoder call on it; the handler
    does not panic, returns whatever [handleEvent] answered after at
    most logging the failure, and never touches the response writer,
    so a response whose header was not written goes out with the
    default status 200. *)
Theorem handleCallbackEvent_hands_body_over env writer content s :
  nonNegative s ->
  wroteHeader writer = None ->
  exists failed s1 s',
    handleEvent env content s = (Ok failed, s1)
    /\ handleCallbackEvent env writer (inr content) s = (Ok writer, s')
    /\ s' = match failed with
            | Some err =>
                setDebugLogs
                  (debugLogs s1
                     ++ ["handleCallbackEvent(): failed to handle event: " +:+ Error err])
                  s1
            | None => s1
            end
    /\ (exists more, journal s' = journal s ++ CJsonDecode content :: more)
    /\ responseStatus writer = 200.
Proof.
  intros Hs Hfresh.
  destruct (decode_frame env content) as (decoded & calls & E & [more ->] & _).
  assert (exists failed s1,
            handleEvent env content s = (Ok failed, s1)
            /\ journal s1 = journal s ++ CJsonDecode content :: more)
    as (failed & s1 & Hrun & Hj).
  { destruct decoded as [err|event].
    - eexists _, _. split; [by apply handleEvent_rejected|]. done.
    - eexists _, _. split; [by eapply handleEvent_decoded|]. done. }
  exists failed, s1.
  unfold handleCallbackEvent, bind at 1. rewrite Hrun.
  unfold responseStatus. rewrite Hfresh.
  destruct failed as [err|]; eexists; (split; [done|]);
    unfold bind, debugLog, ret; simpl;
    (split; [reflexivity|]); (split; [reflexivity|]);
    (split; [by eexists | done]).
Qed.

Lemma handleCallbackEvent_hands_body_over_witness :
  exists s',
    handleCallbackEvent sampleEnv (mkWriter None "") (inr "") pushTwo
    = (Ok (mkWriter None ""), s')
    /\ (exists more, journal s' = journal pushTwo ++ CJsonDecode "" :: more)
    /\ responseStatus (mkWriter None "") = 200.
Proof.
  destruct (handleCallbackEvent_hands_body_over
              sampleEnv (mkWriter None "") "" pushTwo nonNegative_pushTwo eq_refl)
    as (failed & s1 & s' & _ & Hrun & _ & Hj & Hstatus).
  by exists s'.
Defined.

(** ** The SSE transport *)

(** C8: one turn of the loop of [connectToSSE].  A request that cannot
    be built for a [newRequestError] panics; one that cannot be built
    for another error returns that error; a handshake that fails logs
    it, marks the member down and goes straight into the next turn,
    the journal holding the request and the handshake and no sleep. *)
Theorem connectToSSE_turn env fuel s :
  let built :=
    buildAPIRequest env (length (journal s)) (hosts (client s))
                    "GET" (marathonAPIEventStream env) in
  let asked :=
    setJournal (journal s ++ [CBuildAPIRequest "GET" (marathonAPIEventStream env)]) s in
  (forall msg,
      built = inl (newRequestError msg) ->
      connectToSSE env (S fuel) s
      = (Panic ("Requests for SSE subscriptions should never fail to be created: "
                  +:+ msg), asked))
  /\ (forall err,
        built = inl err -> (forall msg, err ≠ newRequestError msg) ->
        connectToSSE env (S fuel) s = (Ok (inl err), asked))
  /\ (forall request member err,
        built = inr (request, member) ->
        subscribeWith env (S (length (journal s))) request = inl err ->
        connectToSSE env (S fuel) s
        = connectToSSE env fuel
            (mkRuntime (markDown member (client s)) (fresh s) (closed s)
               (waitGroups s) (goroutines s)
               (journal s ++ [CBuildAPIRequest "GET" (marathonAPIEventStream env);
                              CSubscribeWith request])
               (debugLogs s
                  ++ ["Error subscribing to Marathon event stream: " +:+ Error err])))
  /\ (forall request member stream,
        built = inr (request, member) ->
        subscribeWith env (S (length (journal s))) request = inr stream ->
        connectToSSE env (S fuel) s
        = (Ok (inr stream),
           setJournal (journal s ++ [CBuildAPIRequest "GET" (marathonAPIEventStream env);
                                     CSubscribeWith request]) s)).
Proof.
  intros built asked. subst built asked.
  repeat split.
  - intros msg Hb. cbn [connectToSSE]. unfold_m. simpl. by rewrite Hb.
  - intros err Hb Hother. cbn [connectToSSE]. unfold_m. simpl. rewrite Hb.
    destruct err; [done | by destruct (Hother msg) | done].
  - intros request member err Hb Hs. cbn [connectToSSE]. unfold_m. simpl.
    rewrite Hb. simpl. rewrite length_app, Nat.add_1_r, Hs. simpl.
    by rewrite <- app_assoc.
  - intros request member stream Hb Hs. cbn [connectToSSE]. unfold_m. simpl.
    rewrite Hb. simpl. rewrite length_app, Nat.add_1_r, Hs. simpl.
    unfold setJournal. by rewrite <- app_assoc.
Qed.

(** The supervision loop sleeps five seconds after a failed
    connection before it connects again. *)
Lemma superviseSSE_backoff env fuel s err s1 :
  connectToSSE env (S fuel) s = (Ok (inl err), s1) ->
  superviseSSE env (S fuel) s
  = superviseSSE env fuel
      (mkRuntime (client s1) (fresh s1) (closed s1) (waitGroups s1) (goroutines s1)
                 (journal s1 ++ [CSleep 5])
                 (debugLogs s1 ++ ["Error connecting SSE subscription: " +:+ Error err])).
Proof.
  intros Hc. cbn [superviseSSE]. unfold bind at 1. rewrite Hc.
  unfold bind, debugLog, record. reflexivity.
Qed.

Lemma connectToSSE_turn_witness :
  connectToSSE sampleEnv 2 (initial pullConfig)
  = connectToSSE sampleEnv 1
      (mkRuntime (markDown "m0" (newClient pullConfig)) 0%nat ∅ ∅ []
         [CBuildAPIRequest "GET" "v2/events"; CSubscribeWith "http://m0/v2/events"]
         ["Error subscribing to Marathon event stream: connection refused"]).
Proof.
  destruct (connectToSSE_turn sampleEnv 1 (initial pullConfig))
    as (_ & _ & Hhandshake & _).
  apply (Hhandshake "http://m0/v2/events" "m0" (foreignError "connection refused"));
    by vm_compute.
Defined.

Lemma supervisors_app gs1 gs2 :
  supervisors (gs1 ++ gs2) = (supervisors gs1 + supervisors gs2)%nat.
Proof. apply sum_list_with_app. Qed.

(** The setup starts a supervision loop only when none was started
    before, and then raises the flag; otherwise flag and loops stay. *)
Lemma registerSubscription_supervisors env s o s' :
  registerSubscription env s = (o, s') ->
  (subscribedToSSE (client s') = subscribedToSSE (client s)
   /\ supervisors (goroutines s') = supervisors (goroutines s))
  \/ (subscribedToSSE (client s) = false
      /\ subscribedToSSE (client s') = true
      /\ supervisors (goroutines s') = S (supervisors (goroutines s))).
Proof.
  intros H. run_setup.
  repeat case_match; simplify_eq; simpl; rewrite ?supervisors_app.
  all: try (left; split; [done | simpl; lia]).
  right. change (supervisors [GSSE]) with 1%nat. split; [done|]. split; [done | lia].
Qed.

(** [superviseSSE] has no way out of its loop: it is still running
    when the fuel is spent, unless it panicked. *)
Lemma superviseSSE_never_returns env fuel s :
  fst (superviseSSE env fuel s) ≠ Ok tt.
Proof.
  revert s. induction fuel as [|fuel IH]; intros s; [done|].
  cbn [superviseSSE]. unfold bind at 1.
  destruct (connectToSSE env (S fuel) s) as [[[err|stream]|msg|] s1]; [| |done|done].
  - unfold bind, debugLog, record. apply IH.
  - unfold bind at 1.
    destruct (listenToSSE env stream s1) as [[err|msg|] s2]; [|done|done].
    unfold bind, debugLog, record. apply IH.
Qed.

(** ** Coherence is kept by every step *)

Lemma inFlight_app w gs1 gs2 :
  inFlight w (gs1 ++ gs2) = (inFlight w gs1 + inFlight w gs2)%nat.
Proof. apply sum_list_with_app. Qed.

Lemma inFlight_cons w g gs :
  inFlight w (g :: gs) = (inFlightOn w g + inFlight w gs)%nat.
Proof. done. Qed.

Lemma finalizers_app ch gs1 gs2 :
  finalizers ch (gs1 ++ gs2) = (finalizers ch gs1 + finalizers ch gs2)%nat.
Proof. apply sum_list_with_app. Qed.

Lemma finalizers_cons ch g gs :
  finalizers ch (g :: gs) = (finalizing ch g + finalizers ch gs)%nat.
Proof. done. Qed.

Lemma inFlight_nil w : inFlight w [] = 0%nat.
Proof. done. Qed.

Lemma finalizers_nil ch : finalizers ch [] = 0%nat.
Proof. done. Qed.

Ltac count_goroutines :=
  rewrite ?inFlight_app, ?inFlight_cons, ?inFlight_nil,
    ?finalizers_app, ?finalizers_cons, ?finalizers_nil in *.

(** A channel with a finalizer is an event channel made before now. *)
Lemma finalizers_pos n C W gs ch :
  Forall (wfGoroutine n C W) gs -> (0 < finalizers ch gs)%nat ->
  isChannel ch /\ (ch < n)%nat.
Proof.
  induction 1 as [|g gs Hg _ IH]; [rewrite finalizers_nil; lia|].
  rewrite finalizers_cons. intros Hpos.
  destruct (decide (0 < finalizers ch gs)%nat) as [|Hzero]; [by apply IH|].
  destruct g; simpl in Hpos; try lia;
    case_decide; try lia; subst; simpl in Hg; naive_solver.
Qed.

Lemma registered_insert L ch context ch' :
  registered (<[ch := context]> L) ch'
  = if decide (ch = ch') then 1%nat else registered L ch'.
Proof. unfold registered. rewrite lookup_insert. by case_decide. Qed.

Lemma registered_delete L ch ch' :
  registered (delete ch L) ch' = if decide (ch = ch') then 0%nat else registered L ch'.
Proof. unfold registered. rewrite lookup_delete. by case_decide. Qed.

Lemma shut_insert C h ch :
  shut ({[h]} ∪ C) ch = if decide (h = ch) then 1%nat else shut C ch.
Proof.
  unfold shut. repeat case_decide; try done; set_solver.
Qed.

(** Well-formedness of a goroutine under a later runtime. *)
Lemma wfGoroutine_later n C W n' C' W' g :
  wfGoroutine n C W g ->
  (n <= n')%nat ->
  (forall ch context e, g = GDeliver ch context e -> ch ∉ C') ->
  (forall ch, g = GClose ch -> counter W' (S (S ch)) = 0) ->
  wfGoroutine n' C' W' g.
Proof.
  destruct g; simpl; try done.
  - intros (? & ? & ? & ?) ? Hc _. repeat split; eauto with lia.
  - intros (? & ? & ?) ? _ _. repeat split; eauto with lia.
  - intros (? & ? & ?) ? _ Hw. repeat split; eauto with lia.
Qed.

Lemma inFlight_transport w extra : Forall isTransport extra -> inFlight w extra = 0%nat.
Proof.
  induction 1 as [|g ? Hg _ IH]; [done|].
  rewrite inFlight_cons, IH. destruct g; simpl in Hg; done.
Qed.

Lemma finalizers_transport ch extra :
  Forall isTransport extra -> finalizers ch extra = 0%nat.
Proof.
  induction 1 as [|g ? Hg _ IH]; [done|].
  rewrite finalizers_cons, IH. destruct g; simpl in Hg; done.
Qed.

(** Goroutines of the transports do not matter to coherence. *)
Lemma coherent_transport L n C W gs rs extra :
  coherent L n C W gs rs -> Forall isTransport extra ->
  coherent L n C W (gs ++ extra) rs.
Proof.
  intros [] Hextra. split; try done.
  - apply Forall_app. split; [done|].
    eapply Forall_impl; [exact Hextra|]. by intros [].
  - intros w. by rewrite inFlight_app, (inFlight_transport _ _ Hextra), Nat.add_0_r.
  - intros ch. by rewrite finalizers_app, (finalizers_transport _ _ Hextra), Nat.add_0_r.
Qed.

(** Attaching: a new registry entry on three new handles. *)
Lemma coherent_attach L n C W gs f :
  coherent L n C W gs [] ->
  coherent (<[n := mkContext f (S n) (S (S n))]> L) (S (S (S n))) C W gs [].
Proof.
  intros [[k Hk] Hclosed Hreg _ Hgs Hcount Hphase]. split.
  - exists (S k). lia.
  - intros h Hh. specialize (Hclosed h Hh). lia.
  - intros ch context. rewrite lookup_insert. case_decide.
    + intros [= <-]. subst ch. simpl. split; [by exists k|].
      repeat split; try lia. intros Hin. specialize (Hclosed _ Hin). lia.
    + intros Hfound. destruct (Hreg _ _ Hfound) as (? & ? & ? & ? & ?).
      repeat split; try done; lia.
  - intros rd entry Hrd. by apply elem_of_nil in Hrd.
  - eapply Forall_impl; [exact Hgs|]. intros g Hg.
    eapply wfGoroutine_later; [exact Hg | lia | |].
    + intros ch context e ->. by destruct Hg as (_ & _ & _ & ?).
    + intros ch ->. by destruct Hg as (_ & _ & ?).
  - done.
  - intros ch. rewrite registered_insert. case_decide; [subst ch|done].
    assert (finalizers n gs = 0%nat) as ->.
    { destruct (decide (0 < finalizers n gs)%nat) as [Hpos|]; [|lia].
      destruct (finalizers_pos _ _ _ _ _ Hgs Hpos). lia. }
    unfold shut. case_decide as Hin; [|lia]. specialize (Hclosed _ Hin). lia.
Qed.

(** Detaching: the entry goes, its [done] is closed, its finalizer
    starts. *)
Lemma coherent_detach L n C W gs ch context :
  coherent L n C W gs [] ->
  L !! ch = Some context ->
  (done context ∉ C)
  /\ coherent (delete ch L) n ({[done context]} ∪ C) W
              (gs ++ [GFinalize (completion context) ch]) [].
Proof.
  intros [Hn Hclosed Hreg _ Hgs Hcount Hphase] Hfound.
  destruct (Hreg _ _ Hfound) as ([k Hk] & Hdone & Hcompl & Hlt & Hopen).
  rewrite Hdone, Hcompl. split; [done|]. split.
  - done.
  - intros h [->%elem_of_singleton|Hh]%elem_of_union; [lia | by apply Hclosed].
  - intros ch' context'. rewrite lookup_delete. case_decide; [done|].
    intros Hfound'. destruct (Hreg _ _ Hfound') as (? & ? & ? & ? & ?).
    repeat split; try done. set_solver.
  - intros rd entry Hrd. by apply elem_of_nil in Hrd.
  - apply Forall_app. split.
    + eapply Forall_impl; [exact Hgs|]. intros g Hg.
      eapply wfGoroutine_later; [exact Hg | lia | |].
      * intros c context' e ->. destruct Hg as ([k' ->] & _ & _ & Hc).
        intros [Heq%elem_of_singleton|?]%elem_of_union; [lia | done].
      * intros c ->. by destruct Hg as (_ & _ & ?).
    + repeat constructor; [by exists k | lia].
  - intros w. rewrite inFlight_app, Hcount. simpl. lia.
  - intros c. specialize (Hphase c).
    rewrite registered_delete, finalizers_app, finalizers_cons, finalizers_nil,
      shut_insert.
    cbn [finalizing].
    destruct (decide (ch = c)) as [<-|Hne].
    + unfold registered in Hphase. rewrite Hfound in Hphase.
      cbn iota. case_decide; lia.
    + cbn iota. case_decide as Hc; [subst c | lia].
      (* the [done] handle is no event channel *)
      unfold registered.
      destruct (L !! S ch) as [context'|] eqn:Hreg'.
      { destruct (Hreg _ _ Hreg') as ([k' Hk'] & _). lia. }
      destruct (decide (0 < finalizers (S ch) gs)%nat) as [Hpos|]; [|lia].
      destruct (finalizers_pos _ _ _ _ _ Hgs Hpos) as [[k' Hk'] _]. lia.
Qed.

(** Readers come and go as long as what they have still to visit is in
    the registry. *)
Lemma coherent_readers L n C W gs rs rs' :
  coherent L n C W gs rs ->
  (forall rd entry,
      rd ∈ rs' -> entry ∈ readerTodo rd -> L !! entry.1 = Some entry.2) ->
  coherent L n C W gs rs'.
Proof. intros [] Hrs. by split. Qed.

Lemma readers_advance (L : gmap nat EventsChannelContext) rs1 event entry todo rs2 :
  (forall rd e, rd ∈ rs1 ++ mkReader event (entry :: todo) :: rs2 ->
                e ∈ readerTodo rd -> L !! e.1 = Some e.2) ->
  L !! entry.1 = Some entry.2
  /\ (forall rd e, rd ∈ rs1 ++ mkReader event todo :: rs2 ->
                   e ∈ readerTodo rd -> L !! e.1 = Some e.2).
Proof.
  intros Hrs. split.
  - apply (Hrs (mkReader event (entry :: todo))); [|by left].
    apply elem_of_app. right. by left.
  - intros rd e [Hrd|[->|Hrd]%elem_of_cons]%elem_of_app He.
    + apply (Hrs rd); [|done]. apply elem_of_app. by left.
    + apply (Hrs (mkReader event (entry :: todo))); [|by right].
      apply elem_of_app. right. by left.
    + apply (Hrs rd); [|done]. apply elem_of_app. right. by right.
Qed.

(** One turn of the dispatch loop that starts a delivery. *)
Lemma coherent_dispatch L n C W gs rs1 event channel context todo rs2 :
  coherent L n C W gs (rs1 ++ mkReader event ((channel, context) :: todo) :: rs2) ->
  0 <= counter W (completion context) + 1
  /\ coherent L n C
       (<[completion context := counter W (completion context) + 1]> W)
       (gs ++ [GDeliver channel context event])
       (rs1 ++ mkReader event todo :: rs2).
Proof.
  intros [Hn Hclosed Hreg Hrs Hgs Hcount Hphase].
  destruct (readers_advance _ _ _ _ _ _ Hrs) as [Hfound Hrs']. simpl in Hfound.
  destruct (Hreg _ _ Hfound) as (Hch & Hdone & Hcompl & Hlt & Hopen).
  assert (registered L channel = 1%nat) as Hregd.
  { unfold registered. by rewrite Hfound. }
  pose proof (Hphase channel) as Hph. rewrite Hregd in Hph.
  split; [rewrite Hcount; lia|]. split; try done.
  - apply Forall_app. split.
    + apply Forall_forall. intros g g_in.
      pose proof (proj1 (Forall_forall _ _) Hgs g g_in) as Hg.
      eapply wfGoroutine_later; [exact Hg | lia | |].
      * intros c context' e ->. by destruct Hg as (_ & _ & _ & ?).
      * intros c ->. destruct Hg as (_ & _ & Hzero).
        rewrite counter_insert. case_decide as Heq; [|done].
        (* a channel being finalized is not registered *)
        assert (c = channel) as -> by lia.
        pose proof (sum_list_with_in _ (finalizing channel) _ g_in) as Hfin.
        simpl in Hfin. rewrite decide_True in Hfin by done.
        unfold finalizers in Hph. lia.
    + repeat constructor; simpl; try done; [lia|].
      unfold shut in Hph. case_decide; [lia | done].
  - intros w. rewrite counter_insert, inFlight_app, inFlight_cons, inFlight_nil.
    simpl. rewrite Hcount. case_decide; [subst w|]; rewrite ?Hcount; lia.
  - intros c. rewrite finalizers_app, finalizers_cons, finalizers_nil. simpl.
    specialize (Hphase c). lia.
Qed.

(** The [select] of a delivery has taken one of its cases. *)
Lemma coherent_select L n C W gs1 ch context e gs2 rs :
  coherent L n C W (gs1 ++ GDeliver ch context e :: gs2) rs ->
  coherent L n C W (gs1 ++ GDelivered context :: gs2) rs.
Proof.
  intros [Hn Hclosed Hreg Hrs Hgs Hcount Hphase]. split; try done.
  - apply Forall_app in Hgs as [Hgs1 [_ Hgs2]%Forall_cons].
    apply Forall_app. split; [done|]. by apply Forall_cons.
  - intros w. rewrite Hcount. by count_goroutines.
  - intros c. specialize (Hphase c). by count_goroutines.
Qed.

(** The deferred [Done] of a delivery. *)
Lemma coherent_done L n C W gs1 context gs2 rs :
  coherent L n C W (gs1 ++ GDelivered context :: gs2) rs ->
  0 <= counter W (completion context) + -1
  /\ coherent L n C
       (<[completion context := counter W (completion context) + -1]> W)
       (gs1 ++ gs2) rs.
Proof.
  intros [Hn Hclosed Hreg Hrs Hgs Hcount Hphase].
  assert (1 <= counter W (completion context)) as Hpos.
  { rewrite Hcount. count_goroutines. simpl. rewrite decide_True by done. lia. }
  split; [lia|]. split; try done.
  - apply Forall_app in Hgs as [Hgs1 [_ Hgs2]%Forall_cons].
    assert (forall g, wfGoroutine n C W g ->
              wfGoroutine n C
                (<[completion context := counter W (completion context) + -1]> W) g)
      as Hkeep.
    { intros g Hg. eapply wfGoroutine_later; [exact Hg | lia | |].
      - intros c context' e' ->. by destruct Hg as (_ & _ & _ & ?).
      - intros c ->. destruct Hg as (_ & _ & Hzero).
        rewrite counter_insert. case_decide as Heq; [|done].
        rewrite Heq in Hpos. lia. }
    apply Forall_app. split; eapply Forall_impl; eauto.
  - intros w. rewrite counter_insert. pose proof (Hcount w) as Hw.
    revert Hw. count_goroutines. simpl.
    case_decide; [subst w|]; intros Hw; lia.
  - intros c. specialize (Hphase c). revert Hphase. by count_goroutines.
Qed.

(** [Wait] returns on a counter at zero. *)
Lemma coherent_wait L n C W gs1 w channel gs2 rs :
  coherent L n C W (gs1 ++ GFinalize w channel :: gs2) rs ->
  counter W w = 0 ->
  coherent L n C W (gs1 ++ GClose channel :: gs2) rs.
Proof.
  intros [Hn Hclosed Hreg Hrs Hgs Hcount Hphase] Hzero. split; try done.
  - apply Forall_app in Hgs as [Hgs1 [(? & -> & ?) Hgs2]%Forall_cons].
    apply Forall_app. split; [done|]. by apply Forall_cons.
  - intros w'. rewrite Hcount. by count_goroutines.
  - intros c. specialize (Hphase c). by count_goroutines.
Qed.

(** The finalizer closes the channel: it was open, and no delivery to
    it is left. *)
Lemma coherent_close L n C W gs1 channel gs2 rs :
  coherent L n C W (gs1 ++ GClose channel :: gs2) rs ->
  (channel ∉ C)
  /\ coherent L n ({[channel]} ∪ C) W (gs1 ++ gs2) rs.
Proof.
  intros [Hn Hclosed Hreg Hrs Hgs Hcount Hphase].
  pose proof (Hphase channel) as Hph. revert Hph. count_goroutines.
  simpl. rewrite decide_True by done. intros Hph.
  assert (channel ∉ C) as Hopen.
  { unfold shut in Hph. case_decide; [lia | done]. }
  pose proof Hgs as Hall.
  apply Forall_app in Hgs as [Hgs1 [([k Hk] & Hlt & Hzero) Hgs2]%Forall_cons].
  split; [done|]. split; try done.
  - intros h [->%elem_of_singleton|Hh]%elem_of_union; [done | by apply Hclosed].
  - intros ch context Hfound.
    destruct (Hreg _ _ Hfound) as ([k' Hk'] & ? & ? & ? & ?).
    repeat split; try done; [by exists k'|].
    intros [Heq%elem_of_singleton|?]%elem_of_union; [lia | done].
  - assert (forall g, g ∈ gs1 ++ GClose channel :: gs2 ->
              wfGoroutine n C W g -> wfGoroutine n ({[channel]} ∪ C) W g) as Hkeep.
    { intros g g_in Hg. eapply wfGoroutine_later; [exact Hg | lia | |].
      - intros c context e ->. destruct Hg as (_ & Hcompl & _ & Hc).
        intros [->%elem_of_singleton|?]%elem_of_union; [|done].
        (* a delivery in flight keeps the counter above zero *)
        pose proof (sum_list_with_in _ (inFlightOn (S (S channel))) _ g_in) as Hin.
        simpl in Hin. rewrite decide_True in Hin by done.
        pose proof (Hcount (S (S channel))) as Hw. unfold inFlight in Hw. lia.
      - intros c ->. by destruct Hg as (_ & _ & ?). }
    apply Forall_app. split; apply Forall_forall; intros g g_in.
    + apply Hkeep; [apply elem_of_app; by left|].
      by apply (proj1 (Forall_forall _ _) Hgs1).
    + apply Hkeep; [apply elem_of_app; right; by right|].
      by apply (proj1 (Forall_forall _ _) Hgs2).
  - intros w. rewrite Hcount. by count_goroutines.
  - intros c. specialize (Hphase c). revert Hphase. count_goroutines. simpl.
    rewrite shut_insert. repeat case_decide; try lia; congruence.
Qed.

Lemma invariant_initial cfg : invariant (mkSystem (initial cfg) [] None).
Proof.
  split; [done|]. simpl. split; try done.
  - by exists 0%nat.
  - intros rd entry Hrd. by apply elem_of_nil in Hrd.
  - intros ch. unfold registered, shut. rewrite lookup_empty, finalizers_nil.
    rewrite decide_False by set_solver. lia.
Qed.

Lemma invariant_step env sys sys' :
  invariant sys -> step env sys sys' -> invariant sys'.
Proof.
  intros [_ Hco] Hstep. destruct Hstep as
    [ sys f _ Hrs | sys channel _ Hrs
    | sys content err s' _ Hdec | sys content event s' _ Hdec
    | sys rs1 event [channel context] todo rs2 _ Hrs | sys rs1 event rs2 _ Hrs
    | sys gs1 ch context e gs2 _ Hgs Hopen | sys gs1 ch context e gs2 _ Hgs Hshut
    | sys gs1 ch context e gs2 _ Hgs Hdone | sys gs1 context gs2 _ Hgs
    | sys gs1 w channel gs2 _ Hgs Hzero | sys gs1 channel gs2 _ Hgs ].
  - (* attach *)
    rewrite Hrs in Hco.
    destruct (AddEventsListener_unfold env f (runtime sys)) as (failed & s1 & E & ->).
    destruct (registerSubscription_frame _ _ _ _ E)
      as (_ & HL & _ & Hn & HC & HW & extra & Hgs & Hextra).
    pose proof (coherent_transport _ _ _ _ _ _ _ Hco Hextra) as Hco1.
    rewrite <- HL, <- Hn, <- HC, <- HW, <- Hgs in Hco1.
    destruct failed; (split; [done|]); simpl; [done|].
    by apply coherent_attach.
  - (* detach *)
    rewrite Hrs in Hco.
    destruct (listeners (client (runtime sys)) !! channel) as [context|] eqn:Hfound.
    + destruct (coherent_detach _ _ _ _ _ _ _ Hco Hfound) as [Hopen Hco'].
      rewrite (RemoveEventsListener_found _ _ _ _ Hfound Hopen).
      by split.
    + unfold RemoveEventsListener. unfold_m. rewrite Hfound. by split.
  - (* a payload that does not decode *)
    destruct (decode_frame env content) as (decoded & calls & E & _).
    rewrite E in Hdec. simplify_eq. by split.
  - (* a payload that decodes: a new reader *)
    destruct (decode_frame env content) as (decoded & calls & E & _).
    rewrite E in Hdec. simplify_eq. split; [done|]. simpl.
    eapply coherent_readers; [exact Hco|].
    intros rd [c ctx] [Hrd| ->%list_elem_of_singleton]%elem_of_app Hentry.
    + by eapply (co_readers _ _ _ _ _ _ Hco rd).
    + simpl in *. by apply elem_of_map_to_list.
  - (* one turn of the dispatch loop *)
    rewrite Hrs in Hco. unfold dispatchOne.
    destruct (Z.land (ID event) (filter context) =? 0).
    + split; [done|]. simpl. eapply coherent_readers; [exact Hco|].
      by apply (readers_advance _ _ _ _ _ _ (co_readers _ _ _ _ _ _ Hco)).
    + destruct (coherent_dispatch _ _ _ _ _ _ _ _ _ _ _ Hco) as [Hpos Hco'].
      unfold wgAdd, go, bind.
      destruct (Z.ltb_spec
                  (counter (waitGroups (runtime sys)) (completion context) + 1) 0);
        [lia|].
      by split.
  - (* RUnlock *)
    rewrite Hrs in Hco. split; [done|]. simpl.
    eapply coherent_readers; [exact Hco|].
    intros rd entry [Hrd|Hrd]%elem_of_app;
      apply (co_readers _ _ _ _ _ _ Hco rd); apply elem_of_app; [by left|].
    right. by right.
  - (* send *)
    rewrite Hgs in Hco. split; [done|]. simpl. by eapply coherent_select.
  - (* send on a closed channel: excluded *)
    rewrite Hgs in Hco. destruct Hco as [_ _ _ _ Hwf _ _].
    by apply Forall_app in Hwf as [_ [(_ & _ & _ & ?) _]%Forall_cons].
  - (* cancelled *)
    rewrite Hgs in Hco. split; [done|]. simpl. by eapply coherent_select.
  - (* Done *)
    rewrite Hgs in Hco. destruct (coherent_done _ _ _ _ _ _ _ _ Hco) as [Hpos Hco'].
    unfold wgAdd. simpl.
    destruct (Z.ltb_spec
                (counter (waitGroups (runtime sys)) (completion context) + -1) 0);
      [lia|].
    by split.
  - (* Wait *)
    rewrite Hgs in Hco. split; [done|]. simpl. by eapply coherent_wait.
  - (* close *)
    rewrite Hgs in Hco. destruct (coherent_close _ _ _ _ _ _ _ _ Hco) as [Hopen Hco'].
    unfold close. simpl. rewrite decide_False by done. by split.
Qed.

Lemma invariant_reachable env cfg sys : reachable env cfg sys -> invariant sys.
Proof.
  induction 1 as [|sys sys' _ IH Hstep]; [apply invariant_initial|].
  by eapply invariant_step.
Qed.

(** ** The channel is closed after the deliveries *)

(** C2: in every state the system reaches, under any interleaving of
    attaches, detaches, dispatches, deliveries and finalizers, nothing
    has panicked (no send on a closed channel, no channel closed twice,
    no wait group below zero) and no step from there panics; a
    delivery that may still send has its channel open; and a finalizer
    about to close a channel finds the wait group of that channel at
    zero, with no delivery to the channel in flight. *)
Theorem channel_closed_after_deliveries env cfg sys :
  reachable env cfg sys ->
  panicked sys = None
  /\ (forall sys', step env sys sys' -> panicked sys' = None)
  /\ (forall ch context e,
        GDeliver ch context e ∈ goroutines (runtime sys) ->
        ch ∉ closed (runtime sys))
  /\ (forall ch,
        GClose ch ∈ goroutines (runtime sys) ->
        counter (waitGroups (runtime sys)) (waitGroupOf ch) = 0
        /\ inFlight (waitGroupOf ch) (goroutines (runtime sys)) = 0%nat
        /\ (ch ∉ closed (runtime sys))
        /\ forall context e, GDeliver ch context e ∉ goroutines (runtime sys)).
Proof.
  intros Hreach. pose proof (invariant_reachable _ _ _ Hreach) as Hinv.
  destruct Hinv as [Hrun Hco]. split; [done|]. split.
  { intros sys' Hstep.
    by destruct (invariant_step env sys sys' (conj Hrun Hco) Hstep). }
  destruct Hco as [Hn Hclosed Hreg Hrs Hgs Hcount Hphase].
  pose proof (proj1 (Forall_forall _ _) Hgs) as Hwf. split.
  - intros ch context e Hin. by destruct (Hwf _ Hin) as (_ & _ & _ & ?).
  - intros ch Hin. destruct (Hwf _ Hin) as (_ & _ & Hzero).
    assert (inFlight (waitGroupOf ch) (goroutines (runtime sys)) = 0%nat) as Hnone.
    { pose proof (Hcount (waitGroupOf ch)) as Hw. unfold waitGroupOf in *. lia. }
    split; [done|]. split; [done|]. split.
    + pose proof (Hphase ch) as Hph.
      pose proof (sum_list_with_in _ (finalizing ch) _ Hin) as Hfin.
      simpl in Hfin. rewrite decide_True in Hfin by done.
      unfold finalizers, shut in Hph. case_decide; [lia | done].
    + intros context e Hdel. destruct (Hwf _ Hdel) as (_ & Hcompl & _).
      pose proof (sum_list_with_in _ (inFlightOn (waitGroupOf ch)) _ Hdel) as Hle.
      simpl in Hle. rewrite decide_True in Hle by done.
      unfold inFlight in Hnone. lia.
Qed.

(** The run is a run of the system. *)
Lemma run_reachable :
  reachable sampleEnv (pushConfig 8080) run8
  /\ step sampleEnv run8 run9.
Proof.
  assert (reachable sampleEnv (pushConfig 8080) run0) as H0 by constructor.
  assert (step sampleEnv run0 run1) as S1 by (by apply step_attach).
  assert (step sampleEnv run1 run2) as S2.
  { apply (step_payload_decoded sampleEnv run1 "deployment_info" runEvent);
      by vm_compute. }
  assert (step sampleEnv run2 run3) as S3.
  { apply (step_dispatch sampleEnv run2 [] runEvent (0%nat, runContext) [] []);
      by vm_compute. }
  assert (step sampleEnv run3 run4) as S4.
  { apply (step_runlock sampleEnv run3 [] runEvent []); by vm_compute. }
  assert (step sampleEnv run4 run5) as S5 by (by apply step_detach).
  assert (step sampleEnv run5 run6) as S6.
  { apply (step_cancelled sampleEnv run5 [GServe "10.0.0.7:8080"] 0 runContext
                          runEvent [GFinalize 2 0]);
      [by vm_compute | by vm_compute | vm_compute; set_solver]. }
  assert (step sampleEnv run6 run7) as S7.
  { apply (step_done sampleEnv run6 [GServe "10.0.0.7:8080"] runContext
                     [GFinalize 2 0]); by vm_compute. }
  assert (step sampleEnv run7 run8) as S8.
  { apply (step_wait sampleEnv run7 [GServe "10.0.0.7:8080"] 2 0 []);
      by vm_compute. }
  assert (step sampleEnv run8 run9) as S9.
  { apply (step_close sampleEnv run8 [GServe "10.0.0.7:8080"] 0 []); by vm_compute. }
  split; [|done].
  pose proof (reachable_step _ _ _ _ H0 S1) as H1.
  pose proof (reachable_step _ _ _ _ H1 S2) as H2.
  pose proof (reachable_step _ _ _ _ H2 S3) as H3.
  pose proof (reachable_step _ _ _ _ H3 S4) as H4.
  pose proof (reachable_step _ _ _ _ H4 S5) as H5.
  pose proof (reachable_step _ _ _ _ H5 S6) as H6.
  pose proof (reachable_step _ _ _ _ H6 S7) as H7.
  exact (reachable_step _ _ _ _ H7 S8).
Qed.

Lemma channel_closed_after_deliveries_witness :
  panicked run8 = None
  /\ panicked run9 = None
  /\ counter (waitGroups (runtime run8)) (waitGroupOf 0) = 0
  /\ 0%nat ∉ closed (runtime run8).
Proof.
  destruct (channel_closed_after_deliveries sampleEnv (pushConfig 8080) run8
              (proj1 run_reachable)) as (Hrun & Hnext & _ & Hclose).
  destruct (Hclose 0%nat) as (Hzero & _ & Hopen & _);
    [vm_compute; repeat constructor|].
  split; [exact Hrun|]. split; [apply Hnext, run_reachable|].
  split; [exact Hzero | exact Hopen].
Defined.

(** ** The supervision loop of the SSE transport is started once *)

Lemma supervisors_cons g gs :
  supervisors (g :: gs)
  = ((match g with GSSE => 1 | _ => 0 end) + supervisors gs)%nat.
Proof. done. Qed.

(** What a call of [RemoveEventsListener] leaves of the flag and the
    supervision loops, whatever its outcome. *)
Lemma RemoveEventsListener_supervisors env channel s :
  subscribedToSSE (client (exec (RemoveEventsListener env channel) s))
  = subscribedToSSE (client s)
  /\ supervisors (goroutines (exec (RemoveEventsListener env channel) s))
     = supervisors (goroutines s).
Proof.
  unfold exec.
  destruct (listeners (client s) !! channel) as [context|] eqn:Hfound.
  - destruct (decide (done context ∈ closed s)) as [Hshut|Hopen].
    + unfold RemoveEventsListener, close. unfold_m. rewrite Hfound. simpl.
      by rewrite decide_True by done.
    + rewrite (RemoveEventsListener_found _ _ _ _ Hfound Hopen). simpl.
      rewrite supervisors_app. split; [done|].
      change (supervisors [GFinalize (completion context) channel]) with 0%nat. lia.
  - unfold RemoveEventsListener. unfold_m. by rewrite Hfound.
Qed.

(** A step either keeps the flag and the number of supervision loops,
    or raises the flag from false and starts one loop. *)
Lemma step_supervisors env sys sys' :
  step env sys sys' ->
  (subscribedToSSE (client (runtime sys')) = subscribedToSSE (client (runtime sys))
   /\ supervisors (goroutines (runtime sys')) = supervisors (goroutines (runtime sys)))
  \/ (subscribedToSSE (client (runtime sys)) = false
      /\ subscribedToSSE (client (runtime sys')) = true
      /\ supervisors (goroutines (runtime sys'))
         = S (supervisors (goroutines (runtime sys)))).
Proof.
  intros Hstep. destruct Hstep as
    [ sys f _ _ | sys channel _ _
    | sys content err s' _ Hdec | sys content event s' _ Hdec
    | sys rs1 event [channel context] todo rs2 _ _ | sys rs1 event rs2 _ _
    | sys gs1 ch context e gs2 _ Hgs _ | sys gs1 ch context e gs2 _ Hgs _
    | sys gs1 ch context e gs2 _ Hgs _ | sys gs1 context gs2 _ Hgs
    | sys gs1 w channel gs2 _ Hgs _ | sys gs1 channel gs2 _ Hgs ]; simpl.
  - destruct (AddEventsListener_unfold env f (runtime sys)) as (failed & s1 & E & ->).
    pose proof (registerSubscription_supervisors _ _ _ _ E) as Hsetup.
    destruct failed; simpl; exact Hsetup.
  - left. apply RemoveEventsListener_supervisors.
  - destruct (decode_frame env content) as (decoded & calls & E & _).
    rewrite E in Hdec. simplify_eq. by left.
  - destruct (decode_frame env content) as (decoded & calls & E & _).
    rewrite E in Hdec. simplify_eq. by left.
  - left. unfold dispatchOne. destruct (_ =? 0); [done|].
    unfold wgAdd, go, bind. destruct (_ <? 0); [done|]. simpl.
    rewrite supervisors_app. split; [done|].
    change (supervisors [GDeliver channel context event]) with 0%nat. lia.
  - by left.
  - left. rewrite Hgs, !supervisors_app, !supervisors_cons. done.
  - by left.
  - left. rewrite Hgs, !supervisors_app, !supervisors_cons. done.
  - left. unfold wgAdd. simpl.
    destruct (_ <? 0); simpl; rewrite Hgs, !supervisors_app, ?supervisors_cons; done.
  - left. rewrite Hgs, !supervisors_app, !supervisors_cons. done.
  - left. unfold close. simpl.
    case_decide; simpl; rewrite Hgs, !supervisors_app, ?supervisors_cons; done.
Qed.

(** C9: [registerSSESubscription] always succeeds and leaves the flag
    up; with the flag up it returns nil and changes nothing, so no
    second loop is started; in every state the system reaches there is
    one supervision loop if the flag is up and none otherwise; no step
    of the system, a detach included, lowers the flag or ends the loop;
    and the loop itself never returns. *)
Theorem sse_supervision_started_once env :
  (forall s, exists s',
      registerSSESubscription s = (Ok None, s')
      /\ subscribedToSSE (client s') = true)
  /\ (forall s,
        subscribedToSSE (client s) = true ->
        registerSSESubscription s = (Ok None, s))
  /\ (forall cfg sys,
        reachable env cfg sys ->
        supervisors (goroutines (runtime sys))
        = if subscribedToSSE (client (runtime sys)) then 1%nat else 0%nat)
  /\ (forall sys sys',
        step env sys sys' ->
        subscribedToSSE (client (runtime sys)) = true ->
        subscribedToSSE (client (runtime sys')) = true
        /\ supervisors (goroutines (runtime sys'))
           = supervisors (goroutines (runtime sys)))
  /\ (forall fuel s, fst (superviseSSE env fuel s) ≠ Ok tt).
Proof.
  split; [|split; [|split; [|split]]].
  - intros s. unfold registerSSESubscription. unfold_m.
    destruct (subscribedToSSE (client s)) eqn:Hflag; eexists; by split.
  - intros s Hflag. unfold registerSSESubscription. unfold_m. by rewrite Hflag.
  - intros cfg sys Hreach. induction Hreach as [|sys sys' _ IH Hstep]; [done|].
    destruct (step_supervisors _ _ _ Hstep) as [[-> ->]|(Hoff & -> & ->)]; [done|].
    by rewrite IH, Hoff.
  - intros sys sys' Hstep Hflag.
    destruct (step_supervisors _ _ _ Hstep) as [[-> ->]|(Hoff & _ & _)]; [done|].
    congruence.
  - apply superviseSSE_never_returns.
Qed.

(** Two attaches under the SSE transport, as steps of the system. *)
Lemma pullTwo_reachable :
  reachable sampleEnv pullConfig (mkSystem pullTwo [] None).
Proof.
  pose (sys0 := mkSystem (initial pullConfig) [] None).
  pose (sys1 := after (AddEventsListener sampleEnv 2 (runtime sys0)) []).
  assert (mkSystem pullTwo [] None
          = after (AddEventsListener sampleEnv 6 (runtime sys1)) []) as ->
    by (vm_compute; reflexivity).
  apply (reachable_step _ _ sys1).
  - apply (reachable_step _ _ sys0); [constructor|].
    apply (step_attach sampleEnv sys0 2); reflexivity.
  - apply (step_attach sampleEnv sys1 6); reflexivity.
Qed.

Lemma pullTwo_subscribed : subscribedToSSE (client pullTwo) = true.
Proof. by vm_compute. Qed.

Lemma sse_supervision_started_once_witness :
  registerSSESubscription pullTwo = (Ok None, pullTwo)
  /\ supervisors (goroutines (runtime (mkSystem pullTwo [] None)))
     = if subscribedToSSE (client (runtime (mkSystem pullTwo [] None)))
       then 1%nat else 0%nat.
Proof.
  destruct (sse_supervision_started_once sampleEnv) as (_ & Hagain & Hone & _ & _).
  split; [exact (Hagain pullTwo pullTwo_subscribed)|].
  exact (Hone pullConfig (mkSystem pullTwo [] None) pullTwo_reachable).
Defined.

(** After the two attaches one supervision loop runs. *)
Example pullTwo_supervisors :
  goroutines pullTwo = [GSSE] /\ supervisors (goroutines pullTwo) = 1%nat.
Proof. by vm_compute. Qed.

(** * Further properties of the code *)

(** ** Registration of the callback *)

Lemma hasCallback_elem_of callback urls :
  hasCallback callback urls = bool_decide (callback ∈ urls).
Proof.
  induction urls as [|u urls IH]; cbn [hasCallback].
  - symmetry. apply bool_decide_eq_false_2, not_elem_of_nil.
  - destruct (String.eqb_spec callback u) as [->|Hne].
    + symmetry. apply bool_decide_eq_true_2. by left.
    + rewrite IH. apply bool_decide_ext. rewrite elem_of_cons. naive_solver.
Qed.

Lemma HasSubscription_answer env callback s :
  HasSubscription env callback s =
  (Ok match apiGetSubscriptions env (length (journal s)) with
      | inl err => inl err
      | inr urls => inr (bool_decide (callback ∈ urls))
      end,
   setJournal (journal s ++ [CApiGet (marathonAPISubscription env)]) s).
Proof.
  unfold HasSubscription, Subscriptions. unfold_m. simpl.
  destruct (apiGetSubscriptions env (length (journal s))); [done|].
  by rewrite hasCallback_elem_of.
Qed.

(** X1: [HasSubscription] asks Marathon once for its subscriptions; it
    hands back the error of that call, and otherwise answers true
    exactly when the callback is among the URLs returned. *)
Theorem HasSubscription_spec env callback s :
  HasSubscription env callback s =
  (Ok match apiGetSubscriptions env (length (journal s)) with
      | inl err => inl err
      | inr urls => inr (bool_decide (callback ∈ urls))
      end,
   setJournal (journal s ++ [CApiGet (marathonAPISubscription env)]) s).
Proof. apply HasSubscription_answer. Qed.

(** X2: once the HTTP server is set up, [registerCallbackSubscription]
    neither resolves the interface nor binds nor installs the handler
    again, starts no goroutine and leaves the client alone; it asks for
    the subscriptions and registers the callback with one POST only if
    it is not among them. *)
Theorem registerCallbackSubscription_bound env s srv :
  eventsHTTP (client s) = Some srv ->
  let callback := SubscriptionURL env (client s) in
  let path := marathonAPISubscription env +:+ "?callbackUrl=" +:+ callback in
  let asked := journal s ++ [CApiGet (marathonAPISubscription env)] in
  registerCallbackSubscription env s =
  match apiGetSubscriptions env (length (journal s)) with
  | inl err => (Ok (Some err), setJournal asked s)
  | inr urls =>
      if bool_decide (callback ∈ urls) then (Ok None, setJournal asked s)
      else (Ok (apiPost env (S (length (journal s))) path),
            setJournal (asked ++ [CApiPost path]) s)
  end.
Proof.
  intros Hsrv callback path asked.
  unfold registerCallbackSubscription, bindEventsHTTP. unfold bind at 1.
  unfold bind at 1. unfold getClient at 1. rewrite Hsrv. unfold ret at 1.
  unfold bind at 1. unfold getClient at 1. unfold bind at 1.
  rewrite HasSubscription_answer.
  destruct (apiGetSubscriptions env (length (journal s))) as [err|urls]; [done|].
  fold callback. destruct (bool_decide (callback ∈ urls)); [done|].
  unfold Subscribe. unfold_m. simpl. fold path.
  by rewrite length_app, Nat.add_1_r.
Qed.

Lemma string_app_assoc (a b c : string) : (a +:+ b) +:+ c = a +:+ b +:+ c.
Proof.
  induction a as [|x a IH]; [done|].
  change (String x ((a +:+ b) +:+ c) = String x (a +:+ b +:+ c)). by rewrite IH.
Qed.

Lemma string_app_empty_r (a : string) : a +:+ "" = a.
Proof.
  induction a as [|x a IH]; [done|].
  change (String x (a +:+ "") = String x a). by rewrite IH.
Qed.

(** The end of a string occurs in it. *)
Lemma contains_suffix before needle : contains needle (before +:+ needle).
Proof. exists before, "". by rewrite string_app_empty_r. Qed.

Lemma contains_app_r before needle hay :
  contains needle hay -> contains needle (before +:+ hay).
Proof.
  intros (b & e & ->). exists (before +:+ b), e. by rewrite string_app_assoc.
Qed.

Lemma contains_prefix needle behind : contains needle (needle +:+ behind).
Proof. by exists "", behind. Qed.

Lemma pushOne_bound :
  eventsHTTP (client pushOne) = Some (mkServer "10.0.0.7:8080" 10 10 1048576).
Proof. by vm_compute. Qed.

Lemma registerCallbackSubscription_bound_witness :
  registerCallbackSubscription sampleEnv pushOne
  = (Ok None,
     setJournal
       (journal pushOne
          ++ [CApiGet "v2/eventSubscriptions";
              CApiPost "v2/eventSubscriptions?callbackUrl=http://10.0.0.7:8080/event"])
       pushOne).
Proof.
  rewrite (registerCallbackSubscription_bound sampleEnv pushOne _ pushOne_bound).
  by vm_compute.
Defined.

(** X3: when the interface cannot be resolved on the first attach,
    [registerCallbackSubscription] returns an error naming the
    interface and the cause; the client is untouched (the server is
    still unset, so the next attach tries again), nothing is bound and
    no goroutine starts. *)
Theorem registerCallbackSubscription_interface_failure env s err :
  eventsHTTP (client s) = None ->
  getInterfaceAddress env (length (journal s)) (EventsInterface (config (client s)))
  = inl err ->
  exists msg,
    registerCallbackSubscription env s
    = (Ok (Some (errorString msg)),
       setJournal
         (journal s ++ [CGetInterfaceAddress (EventsInterface (config (client s)))]) s)
    /\ contains (EventsInterface (config (client s))) msg
    /\ contains (Error err) msg.
Proof.
  intros Hnil Hfail. eexists. split; [|split].
  - run_setup. by rewrite Hnil, Hfail.
  - apply contains_app_r, contains_prefix.
  - apply contains_app_r, contains_app_r, contains_suffix.
Qed.

Lemma registerCallbackSubscription_interface_failure_witness :
  exists msg,
    registerCallbackSubscription offlineEnv (initial (pushConfig 8080))
    = (Ok (Some (errorString msg)),
       setJournal (journal (initial (pushConfig 8080))
                     ++ [CGetInterfaceAddress
                           (EventsInterface (config (client (initial (pushConfig 8080)))))])
                  (initial (pushConfig 8080)))
    /\ contains (EventsInterface (config (client (initial (pushConfig 8080))))) msg
    /\ contains (Error (foreignError "no such network interface")) msg.
Proof.
  exact (registerCallbackSubscription_interface_failure
           offlineEnv (initial (pushConfig 8080))
           (foreignError "no such network interface") eq_refl eq_refl).
Defined.

(** ** Attaching and detaching *)

(** X4: under the SSE transport an attach cannot fail: it makes no call
    to the outside, registers the subscriber under the next free
    handle, leaves the flag up, and starts the supervision loop only if
    the flag was down. *)
Theorem AddEventsListener_sse_succeeds env f s :
  EventsTransport (config (client s)) ≠ EventsTransportCallback env ->
  EventsTransport (config (client s)) = EventsTransportSSE env ->
  exists s',
    AddEventsListener env f s = (Ok (inr (fresh s)), s')
    /\ journal s' = journal s
    /\ listeners (client s')
       = <[fresh s := mkContext f (S (fresh s)) (S (S (fresh s)))]> (listeners (client s))
    /\ subscribedToSSE (client s') = true
    /\ goroutines s'
       = goroutines s ++ (if subscribedToSSE (client s) then [] else [GSSE]).
Proof.
  intros Hcb Hsse. unfold AddEventsListener, registerSubscription,
    registerSSESubscription. unfold_m.
  destruct (Z.eqb_spec (EventsTransport (config (client s)))
                       (EventsTransportCallback env)); [done|].
  rewrite Hsse, Z.eqb_refl.
  destruct (subscribedToSSE (client s)) eqn:Hflag; simpl;
    eexists; (split; [reflexivity|]); simpl; rewrite ?app_nil_r; by rewrite ?Hflag.
Qed.

Lemma AddEventsListener_sse_succeeds_witness :
  exists s',
    AddEventsListener sampleEnv 6 (initial pullConfig)
    = (Ok (inr (fresh (initial pullConfig))), s')
    /\ journal s' = journal (initial pullConfig)
    /\ listeners (client s')
       = <[fresh (initial pullConfig) :=
             mkContext 6 (S (fresh (initial pullConfig)))
                       (S (S (fresh (initial pullConfig))))]>
           (listeners (client (initial pullConfig)))
    /\ subscribedToSSE (client s') = true
    /\ goroutines s'
       = goroutines (initial pullConfig)
           ++ (if subscribedToSSE (client (initial pullConfig)) then [] else [GSSE]).
Proof.
  apply (AddEventsListener_sse_succeeds sampleEnv 6 (initial pullConfig));
    by vm_compute.
Defined.

(** X5: detaching a registered subscriber leaves every other entry of
    the registry and every wait group as they were, closes its [done]
    and nothing else, and starts its finalizer and nothing else; under
    a transport other than the callback it makes no call to the
    outside, however many subscribers remain. *)
Theorem RemoveEventsListener_frame env channel s context :
  listeners (client s) !! channel = Some context ->
  done context ∉ closed s ->
  exists s',
    RemoveEventsListener env channel s = (Ok tt, s')
    /\ listeners (client s') !! channel = None
    /\ (forall other, other ≠ channel ->
          listeners (client s') !! other = listeners (client s) !! other)
    /\ closed s' = {[done context]} ∪ closed s
    /\ waitGroups s' = waitGroups s
    /\ goroutines s' = goroutines s ++ [GFinalize (completion context) channel]
    /\ (EventsTransport (config (client s)) ≠ EventsTransportCallback env ->
        journal s' = journal s).
Proof.
  intros Hfound Hopen. eexists. split; [by apply RemoveEventsListener_found|].
  simpl. split; [apply lookup_delete_eq|].
  split; [intros other Hne; by apply lookup_delete_ne|].
  repeat (split; [reflexivity|]).
  intros Hne.
  destruct (Z.eqb_spec (EventsTransport (config (client s)))
                       (EventsTransportCallback env)); [done|].
  simpl. by rewrite app_nil_r.
Qed.

Lemma pullTwo_second : listeners (client pullTwo) !! 3%nat = Some (mkContext 6 4 5).
Proof. by vm_compute. Qed.

Lemma pullTwo_second_open : done (mkContext 6 4 5) ∉ closed pullTwo.
Proof. vm_compute. set_solver. Qed.

Lemma pullTwo_transport :
  EventsTransport (config (client pullTwo)) ≠ EventsTransportCallback sampleEnv.
Proof. by vm_compute. Qed.

Lemma RemoveEventsListener_frame_witness :
  exists s',
    RemoveEventsListener sampleEnv 3 pullTwo = (Ok tt, s')
    /\ listeners (client s') !! 3%nat = None
    /\ waitGroups s' = waitGroups pullTwo
    /\ journal s' = journal pullTwo.
Proof.
  destruct (RemoveEventsListener_frame sampleEnv 3%nat pullTwo (mkContext 6 4 5)
              pullTwo_second pullTwo_second_open)
    as (s' & Hrun & Hgone & _ & _ & Hwg & _ & Hquiet).
  exists s'. split; [exact Hrun|]. split; [exact Hgone|]. split; [exact Hwg|].
  exact (Hquiet pullTwo_transport).
Defined.

(** X6: the life of the callback registration.  On the first attach
    under the callback transport, with the interface resolving to
    [ip], the listener binding, and the callback not yet known to
    Marathon, the attach resolves, installs the handler, binds, asks
    for the subscriptions and POSTs the callback; detaching that only
    subscriber DELETEs the very same path, and empties the registry. *)
Theorem callback_registered_then_unregistered env f s ip urls :
  EventsTransport (config (client s)) = EventsTransportCallback env ->
  eventsHTTP (client s) = None ->
  listeners (client s) = ∅ ->
  S (fresh s) ∉ closed s ->
  (forall t, getInterfaceAddress env t (EventsInterface (config (client s))) = inr ip) ->
  (forall t, netListen env t (ip +:+ ":" +:+ pretty (EventsPort (config (client s))))
             = None) ->
  (forall t, apiGetSubscriptions env t = inr urls) ->
  SubscriptionURL env (setIpAddress ip (client s)) ∉ urls ->
  (forall t path, apiPost env t path = None) ->
  let path := marathonAPISubscription env +:+ "?callbackUrl="
                +:+ SubscriptionURL env (setIpAddress ip (client s)) in
  let binding := ip +:+ ":" +:+ pretty (EventsPort (config (client s))) in
  exists s1 s2,
    AddEventsListener env f s = (Ok (inr (fresh s)), s1)
    /\ goroutines s1 = goroutines s ++ [GServe binding]
    /\ RemoveEventsListener env (fresh s) s1 = (Ok tt, s2)
    /\ listeners (client s2) = ∅
    /\ journal s2 = journal s
         ++ [CGetInterfaceAddress (EventsInterface (config (client s)));
             CHandleFunc (defaultEventsURL env);
             CNetListen binding;
             CApiGet (marathonAPISubscription env);
             CApiPost path;
             CApiDelete path].
Proof.
  intros Ht Hnil Hempty Hopen Hip Hbind Hget Hnew Hpost path binding.
  assert (exists s1,
            AddEventsListener env f s = (Ok (inr (fresh s)), s1)
            /\ goroutines s1 = goroutines s ++ [GServe binding]
            /\ listeners (client s1)
               = {[fresh s := mkContext f (S (fresh s)) (S (S (fresh s)))]}
            /\ closed s1 = closed s
            /\ config (client s1) = config (client s)
            /\ SubscriptionURL env (client s1)
               = SubscriptionURL env (setIpAddress ip (client s))
            /\ journal s1 = journal s
                 ++ [CGetInterfaceAddress (EventsInterface (config (client s)));
                     CHandleFunc (defaultEventsURL env);
                     CNetListen binding;
                     CApiGet (marathonAPISubscription env);
                     CApiPost path])
    as (s1 & Hadd & Hgs & HL & HC & Hcfg & Hurl & Hj).
  { eexists. unfold AddEventsListener. run_setup.
    rewrite Ht, Z.eqb_refl, Hnil, Hip. simpl. rewrite Hbind. simpl.
    rewrite Hget, hasCallback_elem_of. simpl.
    rewrite bool_decide_eq_false_2 by exact Hnew. simpl.
    rewrite Hpost. simpl. split; [reflexivity|]. simpl.
    rewrite Hempty, insert_empty. repeat (split; [reflexivity|]).
    by rewrite <- !app_assoc. }
  assert (listeners (client s1) !! fresh s
          = Some (mkContext f (S (fresh s)) (S (S (fresh s))))) as Hfound.
  { rewrite HL. apply lookup_singleton_eq. }
  exists s1. eexists. split; [done|]. split; [done|].
  split; [apply (RemoveEventsListener_found _ _ _ _ Hfound); simpl; by rewrite HC|].
  simpl. split.
  - rewrite HL. apply delete_singleton_eq.
  - rewrite Hcfg, Ht, Z.eqb_refl, HL, delete_singleton_eq, map_size_empty. simpl.
    rewrite Hurl, Hj. by rewrite <- app_assoc.
Qed.

Lemma callback_registered_then_unregistered_witness :
  exists s1 s2,
    AddEventsListener sampleEnv 2 (initial (pushConfig 8080)) = (Ok (inr 0%nat), s1)
    /\ goroutines s1 = [GServe "10.0.0.7:8080"]
    /\ RemoveEventsListener sampleEnv 0 s1 = (Ok tt, s2)
    /\ listeners (client s2) = ∅
    /\ journal s2
       = [CGetInterfaceAddress "eth0"; CHandleFunc "/event"; CNetListen "10.0.0.7:8080";
          CApiGet "v2/eventSubscriptions";
          CApiPost "v2/eventSubscriptions?callbackUrl=http://10.0.0.7:8080/event";
          CApiDelete "v2/eventSubscriptions?callbackUrl=http://10.0.0.7:8080/event"].
Proof.
  apply (callback_registered_then_unregistered
           sampleEnv 2 (initial (pushConfig 8080)) "10.0.0.7" []);
    first [ apply not_elem_of_nil | intros; by vm_compute | vm_compute; set_solver ].
Defined.

(** ** What a dispatch starts *)

Lemma deliveries_isDelivery event entries : Forall isDelivery (deliveries event entries).
Proof.
  induction entries as [|entry rest IH]; [constructor|].
  cbn [deliveries flat_map]. destruct (_ =? 0); [done|]. by constructor.
Qed.

Lemma targets_deliveries_elem event entries ch :
  ch ∈ targets (deliveries event entries) -> ch ∈ entries.*1.
Proof.
  induction entries as [|entry rest IH]; [done|].
  cbn [deliveries flat_map]. destruct (_ =? 0).
  - intros Hin. right. by apply IH.
  - intros [->|Hin]%elem_of_cons; [by left | right; by apply IH].
Qed.

Lemma targets_deliveries_NoDup event entries :
  NoDup entries.*1 -> NoDup (targets (deliveries event entries)).
Proof.
  induction entries as [|entry rest IH]; [constructor|].
  intros [Hfresh Hrest]%NoDup_cons. cbn [deliveries flat_map].
  destruct (_ =? 0); [by apply IH|].
  apply NoDup_cons. split; [|by apply IH].
  intros Hin. by apply Hfresh, (targets_deliveries_elem event).
Qed.

(** The dispatch loop adds to each wait group as many as the deliveries
    it starts on it. *)
Lemma counted_inFlight event entries W w :
  counter (counted event entries W) w
  = counter W w + Z.of_nat (inFlight w (deliveries event entries)).
Proof.
  revert W. induction entries as [|entry rest IH]; intros W.
  - cbn [counted deliveries flat_map]. rewrite inFlight_nil. lia.
  - cbn [counted deliveries flat_map]. fold (deliveries event rest). rewrite IH.
    destruct (_ =? 0); [done|].
    rewrite (inFlight_app w [_]), inFlight_cons, inFlight_nil, counter_insert.
    cbn [inFlightOn]. case_decide; [subst w|]; lia.
Qed.

(** X7: a payload that decodes starts one delivery for each registered
    subscriber whose filter meets the identity of the event and none
    for any other: the goroutines started are all deliveries, no
    channel is the target of two of them, and a channel is a target
    exactly when it is registered with a filter that meets the
    identity. *)
Theorem handleEvent_one_delivery_each env content event s sd :
  decode env content s = (Ok (inr event), sd) ->
  nonNegative s ->
  exists s' started,
    handleEvent env content s = (Ok None, s')
    /\ goroutines s' = goroutines s ++ started
    /\ Forall isDelivery started
    /\ NoDup (targets started)
    /\ forall ch,
        ch ∈ targets started
        <-> exists context,
              listeners (client s) !! ch = Some context
              /\ Z.land (ID event) (filter context) ≠ 0.
Proof.
  intros Hdec Hs. eexists _, _.
  split; [by eapply handleEvent_decoded|]. split; [reflexivity|].
  split; [apply deliveries_isDelivery|].
  split; [apply targets_deliveries_NoDup, NoDup_fst_map_to_list|].
  intros ch. unfold targets. rewrite list_elem_of_omap. split.
  - intros (g & Hin & Hch). destruct g; simplify_eq/=.
    apply elem_of_deliveries in Hin as (? & _ & ?). eauto.
  - intros (context & Hfound & Hmeet). exists (GDeliver ch context event).
    split; [|done]. by apply elem_of_deliveries.
Qed.

(** X8: a payload that decodes raises each wait group by the number of
    deliveries it starts on that wait group, so a counter that counted
    the deliveries in flight before still counts them after. *)
Theorem handleEvent_counts_deliveries env content event s sd :
  decode env content s = (Ok (inr event), sd) ->
  nonNegative s ->
  exists s' started,
    handleEvent env content s = (Ok None, s')
    /\ goroutines s' = goroutines s ++ started
    /\ nonNegative s'
    /\ forall w,
        counter (waitGroups s') w
        = counter (waitGroups s) w + Z.of_nat (inFlight w started).
Proof.
  intros Hdec Hs. eexists _, _.
  split; [by eapply handleEvent_decoded|]. split; [reflexivity|]. split.
  - intros w. simpl. by apply counted_nonneg.
  - intros w. simpl. apply counted_inFlight.
Qed.

Lemma pushTwo_decodes :
  decode sampleEnv "deployment_info" pushTwo
  = (Ok (inr runEvent),
     setJournal (journal pushTwo
                   ++ [CJsonDecode "deployment_info"; CJsonDecode "deployment_info"])
                pushTwo).
Proof. by vm_compute. Qed.

Lemma handleEvent_one_delivery_each_witness :
  exists s' started,
    handleEvent sampleEnv "deployment_info" pushTwo = (Ok None, s')
    /\ NoDup (targets started)
    /\ (0%nat ∈ targets started
        <-> exists context,
              listeners (client pushTwo) !! 0%nat = Some context
              /\ Z.land (ID runEvent) (filter context) ≠ 0).
Proof.
  destruct (handleEvent_one_delivery_each _ _ _ _ _ pushTwo_decodes nonNegative_pushTwo)
    as (s' & started & Hrun & _ & _ & Hnodup & Hiff).
  exists s', started. split; [exact Hrun|]. split; [exact Hnodup | exact (Hiff 0%nat)].
Defined.

Lemma handleEvent_counts_deliveries_witness :
  exists s' started,
    handleEvent sampleEnv "deployment_info" pushTwo = (Ok None, s')
    /\ goroutines s' = goroutines pushTwo ++ started
    /\ counter (waitGroups s') 5
       = counter (waitGroups pushTwo) 5 + Z.of_nat (inFlight 5 started).
Proof.
  destruct (handleEvent_counts_deliveries _ _ _ _ _ pushTwo_decodes nonNegative_pushTwo)
    as (s' & started & Hrun & Hgs & _ & Hcount).
  exists s', started. split; [exact Hrun|]. split; [exact Hgs | exact (Hcount 5%nat)].
Defined.

(** ** Payloads that are refused *)

(** X9: a payload whose envelope does not decode makes [handleEvent]
    return an error that quotes the payload and the cause; the decoder
    was called once, the catalogue was not consulted for a payload
    decode, and nothing else has changed. *)
Theorem handleEvent_malformed_envelope env content err s :
  decodeEventType env content = inl err ->
  exists msg,
    handleEvent env content s
    = (Ok (Some (errorString msg)), setJournal (journal s ++ [CJsonDecode content]) s)
    /\ contains content msg
    /\ contains (Error err) msg.
Proof.
  intros Hfail. eexists. split; [|split].
  - unfold handleEvent, decode. unfold_m. simpl. by rewrite Hfail.
  - apply contains_app_r, contains_prefix.
  - apply contains_app_r, contains_app_r, contains_suffix.
Qed.

Lemma handleEvent_malformed_envelope_witness :
  exists msg,
    handleEvent sampleEnv "" pushTwo
    = (Ok (Some (errorString msg)), setJournal (journal pushTwo ++ [CJsonDecode ""]) pushTwo)
    /\ contains "" msg
    /\ contains (Error (foreignError "EOF")) msg.
Proof.
  exact (handleEvent_malformed_envelope sampleEnv "" (foreignError "EOF") pushTwo eq_refl).
Defined.

(** X10: a payload of a known type that does not fit that type makes
    [handleEvent] return an error that gives the identity of the event
    and the cause; the decoder was called twice (envelope, payload) and
    nothing is dispatched: goroutines, wait groups and client are as
    before. *)
Theorem handleEvent_payload_mismatch env content tag known err s :
  decodeEventType env content = inr tag ->
  GetEvent env tag = inr known ->
  decodeEvent env content known = inl err ->
  exists msg,
    handleEvent env content s
    = (Ok (Some (errorString msg)),
       setJournal (journal s ++ [CJsonDecode content; CJsonDecode content]) s)
    /\ contains (pretty (ID known)) msg
    /\ contains (Error err) msg.
Proof.
  intros Htag Hknown Hfail. eexists. split; [|split].
  - unfold handleEvent, decode. unfold_m. simpl.
    rewrite Htag, Hknown. simpl. rewrite Hfail. unfold setJournal.
    by rewrite <- app_assoc.
  - apply contains_app_r, contains_prefix.
  - apply contains_app_r, contains_app_r, contains_suffix.
Qed.

Lemma handleEvent_payload_mismatch_witness :
  exists msg,
    handleEvent offlineEnv "deployment_info" pushTwo
    = (Ok (Some (errorString msg)),
       setJournal (journal pushTwo
                     ++ [CJsonDecode "deployment_info"; CJsonDecode "deployment_info"])
                  pushTwo)
    /\ contains (pretty (ID (mkEvent 4 "deployment_info" ""))) msg
    /\ contains (Error (foreignError "cannot unmarshal string into Go value")) msg.
Proof.
  exact (handleEvent_payload_mismatch offlineEnv "deployment_info" "deployment_info"
           (mkEvent 4 "deployment_info" "")
           (foreignError "cannot unmarshal string into Go value") pushTwo
           eq_refl eq_refl eq_refl).
Defined.

(** ** What the receiving side leaves alone *)

Lemma keepsRegistry_refl s : keepsRegistry s s.
Proof. split; try done. exists []. by rewrite app_nil_r. Qed.

Lemma keepsRegistry_trans s1 s2 s3 :
  keepsRegistry s1 s2 -> keepsRegistry s2 s3 -> keepsRegistry s1 s3.
Proof.
  intros [HL1 HH1 HS1 HF1 HC1 (g1 & Hg1 & Hd1)] [HL2 HH2 HS2 HF2 HC2 (g2 & Hg2 & Hd2)].
  split; try congruence.
  exists (g1 ++ g2). split; [by rewrite Hg2, Hg1, app_assoc|].
  by apply Forall_app.
Qed.

Lemma keepsRegistry_journal s calls : keepsRegistry s (setJournal calls s).
Proof. split; try done. exists []. simpl. by rewrite app_nil_r. Qed.

Lemma keepsRegistry_debugLogs s logs : keepsRegistry s (setDebugLogs logs s).
Proof. split; try done. exists []. simpl. by rewrite app_nil_r. Qed.

(** From a runtime with no counter below zero [handleEvent] returns,
    with such a runtime, having left the registry alone. *)
Lemma handleEvent_keeps env content s :
  nonNegative s ->
  exists failed s',
    handleEvent env content s = (Ok failed, s')
    /\ keepsRegistry s s' /\ nonNegative s'.
Proof.
  intros Hs. destruct (decode_frame env content) as (decoded & calls & E & _).
  destruct decoded as [err|event].
  - eexists _, _. split; [by apply handleEvent_rejected|].
    split; [apply keepsRegistry_journal | done].
  - eexists _, _. split; [by eapply handleEvent_decoded|]. split.
    + split; try done. eexists. split; [reflexivity|]. apply deliveries_isDelivery.
    + intros w. simpl. by apply counted_nonneg.
Qed.

(** X11: the intake handler of the callback transport, whatever the
    request (a body that cannot be read, or any content): it returns
    without a panic, hands the response writer back untouched, leaves
    the registry, the closed channels and the handles alone, starts
    nothing but deliveries, and keeps the counters at or above zero. *)
Theorem handleCallbackEvent_keeps env writer body s :
  nonNegative s ->
  exists s',
    handleCallbackEvent env writer body s = (Ok writer, s')
    /\ keepsRegistry s s' /\ nonNegative s'.
Proof.
  intros Hs. destruct body as [err|content].
  - eexists. split; [reflexivity|]. split; [apply keepsRegistry_debugLogs | done].
  - destruct (handleEvent_keeps env content s Hs) as (failed & s1 & Hrun & Hkeep & Hs1).
    unfold handleCallbackEvent, bind at 1. rewrite Hrun.
    destruct failed as [err|]; eexists; (split; [reflexivity|]).
    + split; [|done].
      eapply keepsRegistry_trans; [exact Hkeep | apply keepsRegistry_debugLogs].
    + by split.
Qed.

Lemma handleCallbackEvent_keeps_witness :
  exists s',
    handleCallbackEvent sampleEnv (mkWriter None "") (inr "deployment_info") pushTwo
    = (Ok (mkWriter None ""), s')
    /\ keepsRegistry pushTwo s' /\ nonNegative s'.
Proof.
  exact (handleCallbackEvent_keeps sampleEnv (mkWriter None "") (inr "deployment_info")
           pushTwo nonNegative_pushTwo).
Defined.

(** X12: the read loop of the SSE transport handles the events of the
    stream in order up to the first error of the stream and returns
    that error; what comes after it in the stream plays no part; a
    payload that is refused does not stop the loop; and as long as the
    stream yields no error the loop does not return.  It never
    panics and leaves the registry alone. *)
Theorem listenToSSE_until_first_error env datas s :
  nonNegative s ->
  (forall err rest,
      listenToSSE env ((SEvent <$> datas) ++ SError err :: rest) s
      = (Ok err, exec (listenToSSE env ((SEvent <$> datas) ++ [SError err])) s))
  /\ fst (listenToSSE env (SEvent <$> datas) s) = Pending
  /\ (forall err,
        keepsRegistry s (exec (listenToSSE env ((SEvent <$> datas) ++ [SError err])) s)
        /\ nonNegative (exec (listenToSSE env ((SEvent <$> datas) ++ [SError err])) s)).
Proof.
  revert s. induction datas as [|data datas IH]; intros s Hs.
  - split; [done|]. split; [done|]. intros err. split; [apply keepsRegistry_refl|done].
  - destruct (handleEvent_keeps env data s Hs) as (failed & s1 & Hrun & Hkeep & Hs1).
    assert (exists s2,
              keepsRegistry s s2 /\ nonNegative s2
              /\ forall stream,
                  listenToSSE env (SEvent data :: stream) s = listenToSSE env stream s2)
      as (s2 & Hkeep2 & Hs2 & Hstep).
    { destruct failed as [err|].
      - eexists. split; [|split]; [| |intros stream; cbn [listenToSSE];
          unfold bind at 1; rewrite Hrun; unfold bind, debugLog; reflexivity].
        + eapply keepsRegistry_trans; [exact Hkeep|]. apply keepsRegistry_debugLogs.
        + done.
      - exists s1. split; [done|]. split; [done|].
        intros stream. cbn [listenToSSE]. unfold bind at 1. by rewrite Hrun. }
    destruct (IH s2 Hs2) as (Herr & Hpend & Hframe).
    unfold exec in *. rewrite !fmap_cons. cbn [app].
    split; [|split].
    + intros err rest. rewrite !Hstep. apply Herr.
    + by rewrite Hstep.
    + intros err. rewrite Hstep. destruct (Hframe err) as [Hk ?].
      split; [|done]. by eapply keepsRegistry_trans.
Qed.

Lemma listenToSSE_until_first_error_witness :
  listenToSSE sampleEnv
    ((SEvent <$> ["bogus"; "deployment_info"])
       ++ SError (foreignError "EOF") :: [SEvent "status_update_event"])
    pushTwo
  = (Ok (foreignError "EOF"),
     exec (listenToSSE sampleEnv
             ((SEvent <$> ["bogus"; "deployment_info"]) ++ [SError (foreignError "EOF")]))
          pushTwo).
Proof.
  exact (proj1 (listenToSSE_until_first_error
                  sampleEnv ["bogus"; "deployment_info"] pushTwo nonNegative_pushTwo)
               (foreignError "EOF") [SEvent "status_update_event"]).
Defined.

(** One event of the stream: the loop goes on from a runtime that
    differs in journal, logs, deliveries and counters only. *)
Lemma listenToSSE_event env data s :
  nonNegative s ->
  exists s2,
    keepsRegistry s s2 /\ nonNegative s2
    /\ forall stream,
        listenToSSE env (SEvent data :: stream) s = listenToSSE env stream s2.
Proof.
  intros Hs.
  destruct (handleEvent_keeps env data s Hs) as (failed & s1 & Hrun & Hkeep & Hs1).
  destruct failed as [err|].
  - eexists. split; [|split]; [| |intros stream; cbn [listenToSSE];
      unfold bind at 1; rewrite Hrun; unfold bind, debugLog; reflexivity].
    + eapply keepsRegistry_trans; [exact Hkeep|]. apply keepsRegistry_debugLogs.
    + done.
  - exists s1. split; [done|]. split; [done|].
    intros stream. cbn [listenToSSE]. unfold bind at 1. by rewrite Hrun.
Qed.

(** Whatever the stream, the read loop does not panic and leaves the
    registry alone. *)
Lemma listenToSSE_keeps env stream s :
  nonNegative s ->
  (forall msg, fst (listenToSSE env stream s) ≠ Panic msg)
  /\ keepsRegistry s (exec (listenToSSE env stream) s)
  /\ nonNegative (exec (listenToSSE env stream) s).
Proof.
  revert s. induction stream as [|[data|err] stream IH]; intros s Hs.
  - split; [done|]. split; [apply keepsRegistry_refl | done].
  - destruct (listenToSSE_event env data s Hs) as (s2 & Hkeep & Hs2 & Hstep).
    destruct (IH s2 Hs2) as (Hp & Hk & Hn).
    unfold exec in *. rewrite Hstep.
    split; [done|]. split; [|done]. by eapply keepsRegistry_trans.
  - split; [done|]. split; [apply keepsRegistry_refl | done].
Qed.

(** What [connectToSSE] does to the runtime, for any number of turns. *)
Lemma connectToSSE_effects env fuel s :
  (exists marked,
      hosts (client (exec (connectToSSE env fuel) s)) = hosts (client s) ++ marked
      /\ length (debugLogs (exec (connectToSSE env fuel) s))
         = (length (debugLogs s) + length marked)%nat)
  /\ (exists calls,
        journal (exec (connectToSSE env fuel) s) = journal s ++ calls
        /\ Forall isConnectCall calls)
  /\ keepsRegistry s (exec (connectToSSE env fuel) s)
  /\ goroutines (exec (connectToSSE env fuel) s) = goroutines s
  /\ waitGroups (exec (connectToSSE env fuel) s) = waitGroups s
  /\ (forall err,
        fst (connectToSSE env fuel s) = Ok (inl err) ->
        forall msg, err ≠ newRequestError msg).
Proof.
  revert s. induction fuel as [|fuel IH]; intros s.
  { split; [exists []; by rewrite app_nil_r|].
    split; [exists []; by rewrite app_nil_r|].
    split; [apply keepsRegistry_refl|]. done. }
  unfold exec. cbn [connectToSSE]. unfold_m. simpl.
  destruct (buildAPIRequest env (length (journal s)) (hosts (client s)) "GET"
              (marathonAPIEventStream env)) as [err|[request member]].
  - assert (keepsRegistry s
              (mkRuntime (client s) (fresh s) (closed s) (waitGroups s) (goroutines s)
                 (journal s ++ [CBuildAPIRequest "GET" (marathonAPIEventStream env)])
                 (debugLogs s))) as Hkeep by apply (keepsRegistry_journal s).
    destruct err; simpl;
      (split; [exists []; by rewrite app_nil_r|]);
      (split; [eexists [_]; split; [reflexivity | by repeat constructor]|]);
      (split; [exact Hkeep|]); repeat (split; [done|]);
      intros e [= <-]; done.
  - simpl.
    destruct (subscribeWith env
                (length (journal s ++ [CBuildAPIRequest "GET" (marathonAPIEventStream env)]))
                request) as [err|stream].
    + match goal with |- context [connectToSSE env fuel ?s1] =>
        destruct (IH s1) as ((marked & Hh & Hl) & (calls & Hj & Hc) & Hk & Hg & Hw & He)
      end.
      unfold exec in *. simpl in *.
      split; [exists (member :: marked); split;
                [by rewrite Hh, <- app_assoc
                | rewrite Hl, length_app; simpl; lia]|].
      split; [eexists (_ :: _ :: calls); split;
                [by rewrite Hj, <- !app_assoc | by repeat constructor]|].
      split; [|done].
      eapply keepsRegistry_trans; [|exact Hk].
      split; try done. exists []. simpl. by rewrite app_nil_r.
    + simpl. split; [exists []; by rewrite app_nil_r|].
      split; [eexists [_; _]; split; [by rewrite <- app_assoc | by repeat constructor]|].
      split; [|done]. split; try done. exists []. simpl. by rewrite app_nil_r.
Qed.

(** X13: [connectToSSE], for any number of turns and whatever comes of
    it: the members it marks down are appended to those already down,
    one log line each; the calls it makes are requests built and
    handshakes, never a sleep; it starts no goroutine and touches no
    wait group nor the registry; and an error it returns is never a
    [newRequestError]. *)
Theorem connectToSSE_frame env fuel s :
  (exists marked,
      hosts (client (exec (connectToSSE env fuel) s)) = hosts (client s) ++ marked
      /\ length (debugLogs (exec (connectToSSE env fuel) s))
         = (length (debugLogs s) + length marked)%nat)
  /\ (exists calls,
        journal (exec (connectToSSE env fuel) s) = journal s ++ calls
        /\ Forall isConnectCall calls)
  /\ keepsRegistry s (exec (connectToSSE env fuel) s)
  /\ goroutines (exec (connectToSSE env fuel) s) = goroutines s
  /\ waitGroups (exec (connectToSSE env fuel) s) = waitGroups s
  /\ (forall err,
        fst (connectToSSE env fuel s) = Ok (inl err) ->
        forall msg, err ≠ newRequestError msg).
Proof. apply connectToSSE_effects. Qed.

Lemma connectToSSE_frame_witness :
  (exists marked,
      hosts (client (exec (connectToSSE sampleEnv 3) (initial pullConfig)))
      = hosts (client (initial pullConfig)) ++ marked
      /\ length (debugLogs (exec (connectToSSE sampleEnv 3) (initial pullConfig)))
         = (length (debugLogs (initial pullConfig)) + length marked)%nat)
  /\ goroutines (exec (connectToSSE sampleEnv 3) (initial pullConfig))
     = goroutines (initial pullConfig).
Proof.
  destruct (connectToSSE_frame sampleEnv 3 (initial pullConfig))
    as (Hmarked & _ & _ & Hgs & _).
  split; [exact Hmarked | exact Hgs].
Defined.

Lemma bind_Ok {A B} (m : M A) (f : A -> M B) s a s1 :
  m s = (Ok a, s1) -> bind m f s = f a s1.
Proof. intros E. unfold bind. by rewrite E. Qed.

Lemma bind_Panic {A B} (m : M A) (f : A -> M B) s msg s1 :
  m s = (Panic msg, s1) -> bind m f s = (Panic msg, s1).
Proof. intros E. unfold bind. by rewrite E. Qed.

Lemma bind_Pending {A B} (m : M A) (f : A -> M B) s s1 :
  m s = (Pending, s1) -> bind m f s = (Pending, s1).
Proof. intros E. unfold bind. by rewrite E. Qed.

(** One turn of the supervision loop: it either goes into the next
    turn or stops there (panic, or a read loop that does not return),
    from a runtime whose registry is as before. *)
Lemma superviseSSE_turn env fuel s :
  nonNegative s ->
  exists s2,
    keepsRegistry s s2 /\ nonNegative s2
    /\ (superviseSSE env (S fuel) s = superviseSSE env fuel s2
        \/ snd (superviseSSE env (S fuel) s) = s2).
Proof.
  intros Hs.
  destruct (connectToSSE_effects env (S fuel) s) as (_ & _ & Hk1 & _ & Hw1 & _).
  unfold exec in *. cbn [superviseSSE].
  destruct (connectToSSE env (S fuel) s) as [[[err|stream]|msg|] s1] eqn:E;
    cbn [snd] in Hk1, Hw1.
  - rewrite !(bind_Ok _ _ _ _ _ E).
    eexists. split; [|split]; [| |left; unfold bind, debugLog, record; reflexivity].
    + eapply keepsRegistry_trans; [exact Hk1|].
      split; try done. exists []. simpl. by rewrite app_nil_r.
    + intros w. simpl. rewrite Hw1. apply Hs.
  - rewrite !(bind_Ok _ _ _ _ _ E).
    assert (nonNegative s1) as Hs1 by (intros w; rewrite Hw1; apply Hs).
    destruct (listenToSSE_keeps env stream s1 Hs1) as (Hp & Hk2 & Hn2).
    unfold exec in *.
    destruct (listenToSSE env stream s1) as [[err|msg|] s2] eqn:E2; cbn [snd] in Hk2, Hn2.
    + rewrite !(bind_Ok _ _ _ _ _ E2).
      eexists. split; [|split]; [| |left; unfold bind, debugLog, record; reflexivity].
      * eapply keepsRegistry_trans; [exact Hk1|].
        eapply keepsRegistry_trans; [exact Hk2|].
        split; try done. exists []. simpl. by rewrite app_nil_r.
      * exact Hn2.
    + by destruct (Hp msg).
    + rewrite !(bind_Pending _ _ _ _ E2).
      exists s2. split; [by eapply keepsRegistry_trans|]. split; [done | by right].
  - rewrite !(bind_Panic _ _ _ _ _ E).
    exists s1. split; [done|]. split; [|by right]. intros w. rewrite Hw1. apply Hs.
  - rewrite !(bind_Pending _ _ _ _ E).
    exists s1. split; [done|]. split; [|by right]. intros w. rewrite Hw1. apply Hs.
Qed.

(** X14: the supervision loop of the SSE transport, for as long as it
    is watched and whether it is still running or has panicked: it has
    left the registry, the server, the flag, the handles and the closed
    channels alone, has started nothing but deliveries, and no counter
    is below zero. *)
Theorem superviseSSE_keeps env fuel s :
  nonNegative s ->
  keepsRegistry s (exec (superviseSSE env fuel) s)
  /\ nonNegative (exec (superviseSSE env fuel) s).
Proof.
  revert s. induction fuel as [|fuel IH]; intros s Hs.
  { split; [apply keepsRegistry_refl | done]. }
  destruct (superviseSSE_turn env fuel s Hs) as (s2 & Hk & Hn & [Hnext|Hstop]).
  - unfold exec. rewrite Hnext. destruct (IH s2 Hn) as [Hk2 Hn2].
    split; [|done]. by eapply keepsRegistry_trans.
  - unfold exec. by rewrite Hstop.
Qed.

Lemma nonNegative_initial cfg : nonNegative (initial cfg).
Proof. intros w. by vm_compute. Qed.

Lemma superviseSSE_keeps_witness :
  keepsRegistry (initial pullConfig) (exec (superviseSSE sampleEnv 4) (initial pullConfig))
  /\ nonNegative (exec (superviseSSE sampleEnv 4) (initial pullConfig)).
Proof.
  exact (superviseSSE_keeps sampleEnv 4 (initial pullConfig)
           (nonNegative_initial pullConfig)).
Defined.

(** ** What holds in every state the system reaches *)

(** X15: a subscriber that is registered has its channel open, its
    cancellation signal open, and no finalizer: nothing of its
    teardown has begun. *)
Theorem registered_subscriber_untouched env cfg sys ch context :
  reachable env cfg sys ->
  listeners (client (runtime sys)) !! ch = Some context ->
  (ch ∉ closed (runtime sys))
  /\ (done context ∉ closed (runtime sys))
  /\ finalizers ch (goroutines (runtime sys)) = 0%nat.
Proof.
  intros Hreach Hfound.
  destruct (invariant_reachable _ _ _ Hreach) as [_ [_ _ Hreg _ _ _ Hphase]].
  destruct (Hreg _ _ Hfound) as (_ & -> & _ & _ & Hopen).
  specialize (Hphase ch). unfold registered, shut in Hphase. rewrite Hfound in Hphase.
  split; [|split]; [|done|lia]. case_decide; [lia | done].
Qed.

Lemma pullTwo_system_second :
  listeners (client (runtime (mkSystem pullTwo [] None))) !! 3%nat
  = Some (mkContext 6 4 5).
Proof. by vm_compute. Qed.

Lemma registered_subscriber_untouched_witness :
  (3%nat ∉ closed (runtime (mkSystem pullTwo [] None)))
  /\ (done (mkContext 6 4 5) ∉ closed (runtime (mkSystem pullTwo [] None)))
  /\ finalizers 3 (goroutines (runtime (mkSystem pullTwo [] None))) = 0%nat.
Proof.
  exact (registered_subscriber_untouched sampleEnv pullConfig (mkSystem pullTwo [] None)
           3%nat (mkContext 6 4 5) pullTwo_reachable pullTwo_system_second).
Defined.

Lemma inFlight_none w gs :
  (forall g, g ∈ gs -> inFlightOn w g = 0%nat) -> inFlight w gs = 0%nat.
Proof.
  induction gs as [|g gs IH]; intros Hnone; [done|].
  rewrite inFlight_cons, (Hnone g), IH; [done| |by left].
  intros g' Hin. apply Hnone. by right.
Qed.

(** X16: every wait group counts the deliveries in flight on it, those
    started and not yet done; so no counter is below zero, and a
    finalizer's [Wait] can return exactly when no delivery to its
    subscriber is in flight. *)
Theorem counters_count_deliveries env cfg sys :
  reachable env cfg sys ->
  forall w,
    counter (waitGroups (runtime sys)) w
    = Z.of_nat (inFlight w (goroutines (runtime sys)))
    /\ 0 <= counter (waitGroups (runtime sys)) w
    /\ (counter (waitGroups (runtime sys)) w = 0
        <-> forall g, g ∈ goroutines (runtime sys) -> inFlightOn w g = 0%nat).
Proof.
  intros Hreach w.
  destruct (invariant_reachable _ _ _ Hreach) as [_ [_ _ _ _ _ Hcount _]].
  rewrite Hcount. split; [done|]. split; [lia|]. split.
  - intros Hzero g Hin.
    pose proof (sum_list_with_in _ (inFlightOn w) _ Hin) as Hle.
    unfold inFlight in Hzero. lia.
  - intros Hnone. by rewrite inFlight_none.
Qed.

Lemma counters_count_deliveries_witness :
  counter (waitGroups (runtime run8)) 2
  = Z.of_nat (inFlight 2 (goroutines (runtime run8)))
  /\ 0 <= counter (waitGroups (runtime run8)) 2
  /\ (counter (waitGroups (runtime run8)) 2 = 0
      <-> forall g, g ∈ goroutines (runtime run8) -> inFlightOn 2 g = 0%nat).
Proof.
  exact (counters_count_deliveries sampleEnv (pushConfig 8080) run8
           (proj1 run_reachable) 2%nat).
Defined.

(** X17: a channel has at most one finalizer, and none once it is
    closed: the channel of a subscriber is closed at most once. *)
Theorem one_finalizer_then_closed env cfg sys ch :
  reachable env cfg sys ->
  (finalizers ch (goroutines (runtime sys)) <= 1)%nat
  /\ (ch ∈ closed (runtime sys) -> finalizers ch (goroutines (runtime sys)) = 0%nat)
  /\ (ch ∈ closed (runtime sys) -> listeners (client (runtime sys)) !! ch = None).
Proof.
  intros Hreach.
  destruct (invariant_reachable _ _ _ Hreach) as [_ [_ _ _ _ _ _ Hphase]].
  specialize (Hphase ch). unfold shut, registered in Hphase.
  split; [lia|]. split; intros Hin; rewrite decide_True in Hphase by done; [lia|].
  destruct (listeners (client (runtime sys)) !! ch); [lia | done].
Qed.

Lemma one_finalizer_then_closed_witness :
  (finalizers 0 (goroutines (runtime run9)) <= 1)%nat
  /\ (0%nat ∈ closed (runtime run9) -> finalizers 0 (goroutines (runtime run9)) = 0%nat)
  /\ (0%nat ∈ closed (runtime run9) -> listeners (client (runtime run9)) !! 0%nat = None).
Proof.
  exact (one_finalizer_then_closed sampleEnv (pushConfig 8080) run9 0%nat
           (reachable_step _ _ _ _ (proj1 run_reachable) (proj2 run_reachable))).
Defined.

Lemma elem_of_transport_delivery extra ch context e :
  Forall isTransport extra -> GDeliver ch context e ∉ extra.
Proof.
  intros Hextra Hin. by apply (proj1 (Forall_forall _ _) Hextra) in Hin.
Qed.

Lemma elem_of_replaced (gs1 gs2 : list Goroutine) g g' x :
  x ∈ gs1 ++ g' :: gs2 -> x = g' \/ x ∈ gs1 ++ g :: gs2.
Proof.
  intros [?|[->|?]%elem_of_cons]%elem_of_app; [right|by left|right];
    apply elem_of_app; [by left | right; by right].
Qed.

Lemma elem_of_removed (gs1 gs2 : list Goroutine) g x :
  x ∈ gs1 ++ gs2 -> x ∈ gs1 ++ g :: gs2.
Proof.
  intros [?|?]%elem_of_app; apply elem_of_app; [by left | right; by right].
Qed.

(** Every step keeps the deliveries cancellable. *)
Lemma cancellable_step env sys sys' :
  invariant sys -> cancellable sys -> step env sys sys' -> cancellable sys'.
Proof.
  intros [_ Hco] Hcan Hstep. unfold cancellable in *. destruct Hstep as
    [ sys f _ Hrs | sys channel _ Hrs
    | sys content err s' _ Hdec | sys content event s' _ Hdec
    | sys rs1 event [channel context] todo rs2 _ Hrs | sys rs1 event rs2 _ Hrs
    | sys gs1 ch context e gs2 _ Hgs Hopen | sys gs1 ch context e gs2 _ Hgs Hshut
    | sys gs1 ch context e gs2 _ Hgs Hdone | sys gs1 context gs2 _ Hgs
    | sys gs1 w channel gs2 _ Hgs Hzero | sys gs1 channel gs2 _ Hgs ];
    intros c ctx ev.
  - (* attach *)
    destruct (AddEventsListener_unfold env f (runtime sys)) as (failed & s1 & E & ->).
    destruct (registerSubscription_frame _ _ _ _ E)
      as (_ & HL & _ & Hn & HC & _ & extra & Hgs & Hextra).
    assert (GDeliver c ctx ev ∈ goroutines s1 ->
            listeners (client (runtime sys)) !! c = Some ctx
            \/ done ctx ∈ closed (runtime sys)) as Hold.
    { rewrite Hgs. intros [Hin|Hin]%elem_of_app; [by apply (Hcan c ctx ev)|].
      by destruct (elem_of_transport_delivery extra c ctx ev Hextra). }
    destruct failed; simpl; intros Hin;
      destruct (Hold Hin) as [Hreg|Hshut]; rewrite ?HL, ?HC; auto.
    left. rewrite lookup_insert_ne; [done|].
    destruct (co_registry _ _ _ _ _ _ Hco _ _ Hreg) as (_ & _ & _ & Hlt & _). lia.
  - (* detach *)
    destruct (listeners (client (runtime sys)) !! channel) as [context|] eqn:Hfound.
    + destruct (decide (done context ∈ closed (runtime sys))) as [Hshut|Hopen].
      * unfold RemoveEventsListener, close. unfold_m. rewrite Hfound. simpl.
        rewrite decide_True by done. apply Hcan.
      * rewrite (RemoveEventsListener_found _ _ _ _ Hfound Hopen). simpl.
        intros [Hin|Hin]%elem_of_app; [|by apply list_elem_of_singleton in Hin].
        destruct (Hcan _ _ _ Hin) as [Hreg|Hshut]; [|right; set_solver].
        destruct (decide (channel = c)) as [->|Hne].
        -- right. rewrite Hfound in Hreg. simplify_eq. set_solver.
        -- left. by rewrite lookup_delete_ne.
    + unfold RemoveEventsListener. unfold_m. rewrite Hfound. apply Hcan.
  - destruct (decode_frame env content) as (decoded & calls & E & _).
    rewrite E in Hdec. simplify_eq. apply Hcan.
  - destruct (decode_frame env content) as (decoded & calls & E & _).
    rewrite E in Hdec. simplify_eq. apply Hcan.
  - (* dispatch *)
    rewrite Hrs in Hco.
    destruct (readers_advance _ _ _ _ _ _ (co_readers _ _ _ _ _ _ Hco)) as [Hreg _].
    unfold dispatchOne. destruct (_ =? 0); [apply Hcan|].
    unfold wgAdd, go, bind. destruct (_ <? 0); [apply Hcan|]. simpl.
    intros [Hin|Hin%list_elem_of_singleton]%elem_of_app; [by eapply Hcan|].
    left. by simplify_eq.
  - apply Hcan.
  - simpl. intros [?|Hin]%(elem_of_replaced _ _ (GDeliver ch context e)); [done|].
    rewrite <- Hgs in Hin. by eapply Hcan.
  - apply Hcan.
  - simpl. intros [?|Hin]%(elem_of_replaced _ _ (GDeliver ch context e)); [done|].
    rewrite <- Hgs in Hin. by eapply Hcan.
  - unfold wgAdd. simpl. destruct (_ <? 0); simpl;
      intros Hin%(elem_of_removed _ _ (GDelivered context));
      rewrite <- Hgs in Hin; by eapply Hcan.
  - simpl. intros [?|Hin]%(elem_of_replaced _ _ (GFinalize w channel)); [done|].
    rewrite <- Hgs in Hin. by eapply Hcan.
  - unfold close. simpl. case_decide; simpl;
      intros Hin%(elem_of_removed _ _ (GClose channel));
      rewrite <- Hgs in Hin; destruct (Hcan _ _ _ Hin); auto.
    right. set_solver.
Qed.

(** X18: a delivery that may still send is either to a subscriber
    still registered, under the very context the delivery carries, or
    its cancellation signal is closed: once a subscriber is detached,
    each of its deliveries in flight can take the cancellation case,
    so none of them waits on a receiver for ever. *)
Theorem detached_deliveries_cancellable env cfg sys :
  reachable env cfg sys ->
  forall ch context e,
    GDeliver ch context e ∈ goroutines (runtime sys) ->
    listeners (client (runtime sys)) !! ch = Some context
    \/ done context ∈ closed (runtime sys).
Proof.
  induction 1 as [|sys sys' Hreach IH Hstep].
  - intros ch context e Hin. by apply elem_of_nil in Hin.
  - eapply cancellable_step; [|exact IH|exact Hstep].
    by eapply invariant_reachable.
Qed.

(** The run up to the detach, with the delivery still in flight. *)
Lemma run5_reachable : reachable sampleEnv (pushConfig 8080) run5.
Proof.
  assert (reachable sampleEnv (pushConfig 8080) run0) as H0 by constructor.
  assert (step sampleEnv run0 run1) as S1 by (by apply step_attach).
  assert (step sampleEnv run1 run2) as S2.
  { apply (step_payload_decoded sampleEnv run1 "deployment_info" runEvent);
      by vm_compute. }
  assert (step sampleEnv run2 run3) as S3.
  { apply (step_dispatch sampleEnv run2 [] runEvent (0%nat, runContext) [] []);
      by vm_compute. }
  assert (step sampleEnv run3 run4) as S4.
  { apply (step_runlock sampleEnv run3 [] runEvent []); by vm_compute. }
  assert (step sampleEnv run4 run5) as S5 by (by apply step_detach).
  pose proof (reachable_step _ _ _ _ H0 S1) as H1.
  pose proof (reachable_step _ _ _ _ H1 S2) as H2.
  pose proof (reachable_step _ _ _ _ H2 S3) as H3.
  pose proof (reachable_step _ _ _ _ H3 S4) as H4.
  exact (reachable_step _ _ _ _ H4 S5).
Qed.

Lemma run5_delivery : GDeliver 0 runContext runEvent ∈ goroutines (runtime run5).
Proof. vm_compute. repeat constructor. Qed.

Lemma detached_deliveries_cancellable_witness :
  listeners (client (runtime run5)) !! 0%nat = Some runContext
  \/ done runContext ∈ closed (runtime run5).
Proof.
  exact (detached_deliveries_cancellable sampleEnv (pushConfig 8080) run5
           run5_reachable 0%nat runContext runEvent run5_delivery).
Defined.

(** ** The server of the callback transport is started once *)

Lemma servers_app gs1 gs2 : servers (gs1 ++ gs2) = (servers gs1 + servers gs2)%nat.
Proof. apply sum_list_with_app. Qed.

Lemma servers_cons g gs :
  servers (g :: gs) = ((match g with GServe _ => 1 | _ => 0 end) + servers gs)%nat.
Proof. done. Qed.

(** The setup starts a server loop only when no server was set up
    before, and then sets the server up; otherwise server and loops
    stay.  (It may set the server up without starting a loop.) *)
Lemma registerSubscription_servers env s o s' :
  registerSubscription env s = (o, s') ->
  (eventsHTTP (client s') = eventsHTTP (client s)
   /\ servers (goroutines s') = servers (goroutines s))
  \/ (eventsHTTP (client s) = None
      /\ is_Some (eventsHTTP (client s'))
      /\ (servers (goroutines s') <= S (servers (goroutines s)))%nat).
Proof.
  intros H. run_setup.
  repeat case_match; simplify_eq; simpl; rewrite ?servers_app;
    try change (servers [GSSE]) with 0%nat;
    try change (servers [GServe ?b]) with 1%nat.
  all: try (left; split; [done | simpl; lia]).
  all: right; (split; [done|]); (split; [by eexists | unfold servers; simpl; lia]).
Qed.

Lemma step_servers env sys sys' :
  step env sys sys' ->
  (eventsHTTP (client (runtime sys')) = eventsHTTP (client (runtime sys))
   /\ servers (goroutines (runtime sys')) = servers (goroutines (runtime sys)))
  \/ (eventsHTTP (client (runtime sys)) = None
      /\ is_Some (eventsHTTP (client (runtime sys')))
      /\ (servers (goroutines (runtime sys'))
          <= S (servers (goroutines (runtime sys))))%nat).
Proof.
  intros Hstep. destruct Hstep as
    [ sys f _ _ | sys channel _ _
    | sys content err s' _ Hdec | sys content event s' _ Hdec
    | sys rs1 event [channel context] todo rs2 _ _ | sys rs1 event rs2 _ _
    | sys gs1 ch context e gs2 _ Hgs _ | sys gs1 ch context e gs2 _ Hgs _
    | sys gs1 ch context e gs2 _ Hgs _ | sys gs1 context gs2 _ Hgs
    | sys gs1 w channel gs2 _ Hgs _ | sys gs1 channel gs2 _ Hgs ]; simpl.
  - destruct (AddEventsListener_unfold env f (runtime sys)) as (failed & s1 & E & ->).
    pose proof (registerSubscription_servers _ _ _ _ E) as Hsetup.
    destruct failed; simpl; exact Hsetup.
  - left. destruct (listeners (client (runtime sys)) !! channel) as [context|] eqn:Hfound.
    + destruct (decide (done context ∈ closed (runtime sys))) as [Hshut|Hopen].
      * unfold RemoveEventsListener, close. unfold_m. rewrite Hfound. simpl.
        by rewrite decide_True by done.
      * rewrite (RemoveEventsListener_found _ _ _ _ Hfound Hopen). simpl.
        rewrite servers_app. split; [done|].
        change (servers [GFinalize (completion context) channel]) with 0%nat. lia.
    + unfold RemoveEventsListener. unfold_m. by rewrite Hfound.
  - destruct (decode_frame env content) as (decoded & calls & E & _).
    rewrite E in Hdec. simplify_eq. by left.
  - destruct (decode_frame env content) as (decoded & calls & E & _).
    rewrite E in Hdec. simplify_eq. by left.
  - left. unfold dispatchOne. destruct (_ =? 0); [done|].
    unfold wgAdd, go, bind. destruct (_ <? 0); [done|]. simpl.
    rewrite servers_app. split; [done|].
    change (servers [GDeliver channel context event]) with 0%nat. lia.
  - by left.
  - left. rewrite Hgs, !servers_app, !servers_cons. done.
  - by left.
  - left. rewrite Hgs, !servers_app, !servers_cons. done.
  - left. unfold wgAdd. simpl.
    destruct (_ <? 0); simpl; rewrite Hgs, !servers_app, ?servers_cons; done.
  - left. rewrite Hgs, !servers_app, !servers_cons. done.
  - left. unfold close. simpl.
    case_decide; simpl; rewrite Hgs, !servers_app, ?servers_cons; done.
Qed.

(** X19: in every state the system reaches at most one server loop of
    the callback transport runs, and none before the server was set up;
    once set up the server stays set up through every step, and no
    step then starts another loop: however many subscribers attach,
    the listener is bound once. *)
Theorem server_started_at_most_once env cfg sys :
  reachable env cfg sys ->
  (servers (goroutines (runtime sys)) <= 1)%nat
  /\ (eventsHTTP (client (runtime sys)) = None ->
      servers (goroutines (runtime sys)) = 0%nat)
  /\ (forall sys',
        step env sys sys' ->
        is_Some (eventsHTTP (client (runtime sys))) ->
        is_Some (eventsHTTP (client (runtime sys')))
        /\ servers (goroutines (runtime sys')) = servers (goroutines (runtime sys))).
Proof.
  intros Hreach.
  assert ((servers (goroutines (runtime sys))
           <= match eventsHTTP (client (runtime sys)) with
              | Some _ => 1
              | None => 0
              end)%nat) as Hle.
  { induction Hreach as [|sys sys' _ IH Hstep]; [done|].
    destruct (step_servers _ _ _ Hstep) as [[-> ->]|(Hoff & [srv ->] & Hle)]; [done|].
    rewrite Hoff in IH. lia. }
  split; [destruct (eventsHTTP (client (runtime sys))); lia|].
  split; [intros Hoff; rewrite Hoff in Hle; lia|].
  intros sys' Hstep [srv Hon].
  destruct (step_servers _ _ _ Hstep) as [[-> ->]|(Hoff & _ & _)]; [by eauto|].
  congruence.
Qed.

Lemma server_started_at_most_once_witness :
  (servers (goroutines (runtime run8)) <= 1)%nat
  /\ (eventsHTTP (client (runtime run8)) = None ->
      servers (goroutines (runtime run8)) = 0%nat)
  /\ (forall sys',
        step sampleEnv run8 sys' ->
        is_Some (eventsHTTP (client (runtime run8))) ->
        is_Some (eventsHTTP (client (runtime sys')))
        /\ servers (goroutines (runtime sys')) = servers (goroutines (runtime run8))).
Proof.
  exact (server_started_at_most_once sampleEnv (pushConfig 8080) run8
           (proj1 run_reachable)).
Defined.

(** ** Channels handed out *)

(** X20: in any state the system reaches, the channel a successful
    attach returns is new: it was not registered, is not closed, has no
    finalizer and no delivery on its way; the subscribers registered
    before keep their entries and the registry grows by one. *)
Theorem attach_returns_new_channel env cfg sys f ch s' :
  reachable env cfg sys ->
  AddEventsListener env f (runtime sys) = (Ok (inr ch), s') ->
  listeners (client (runtime sys)) !! ch = None
  /\ (ch ∉ closed (runtime sys))
  /\ finalizers ch (goroutines (runtime sys)) = 0%nat
  /\ (forall context e, GDeliver ch context e ∉ goroutines (runtime sys))
  /\ (forall other context,
        listeners (client (runtime sys)) !! other = Some context ->
        listeners (client s') !! other = Some context)
  /\ size (listeners (client s')) = S (size (listeners (client (runtime sys)))).
Proof.
  intros Hreach Hadd.
  destruct (invariant_reachable _ _ _ Hreach) as [_ [_ Hclosed Hreg _ Hgs _ _]].
  destruct (AddEventsListener_unfold env f (runtime sys)) as (failed & s1 & E & U).
  rewrite U in Hadd.
  destruct (registerSubscription_frame _ _ _ _ E) as (_ & HL & _ & Hn & _).
  destruct failed; simplify_eq. simpl. rewrite Hn, HL.
  assert (listeners (client (runtime sys)) !! fresh (runtime sys) = None) as Hnew.
  { destruct (listeners (client (runtime sys)) !! fresh (runtime sys)) eqn:Hfound;
      [|done].
    destruct (Hreg _ _ Hfound) as (_ & _ & _ & ? & _). lia. }
  split; [done|]. split; [intros Hin; specialize (Hclosed _ Hin); lia|].
  split.
  { destruct (decide (0 < finalizers (fresh (runtime sys))
                           (goroutines (runtime sys)))%nat) as [Hpos|]; [|lia].
    destruct (finalizers_pos _ _ _ _ _ Hgs Hpos). lia. }
  split.
  { intros context e Hin.
    destruct (proj1 (Forall_forall _ _) Hgs _ Hin) as (_ & _ & ? & _). lia. }
  split.
  - intros other context Hfound. rewrite lookup_insert_ne; [done|]. congruence.
  - by apply map_size_insert_None.
Qed.

(** What a successful attach in a reachable state has just registered. *)
Lemma attach_returns_new_channel_aux env cfg sys f ch s1 :
  reachable env cfg sys ->
  AddEventsListener env f (runtime sys) = (Ok (inr ch), s1) ->
  listeners (client (runtime sys)) !! ch = None
  /\ listeners (client s1) !! ch = Some (mkContext f (S ch) (S (S ch)))
  /\ (done (mkContext f (S ch) (S (S ch))) ∉ closed s1)
  /\ listeners (client s1)
     = <[ch := mkContext f (S ch) (S (S ch))]> (listeners (client (runtime sys))).
Proof.
  intros Hreach Hadd.
  destruct (invariant_reachable _ _ _ Hreach) as [_ [_ Hclosed Hreg _ _ _ _]].
  destruct (AddEventsListener_unfold env f (runtime sys)) as (failed & s' & E & U).
  rewrite U in Hadd.
  destruct (registerSubscription_frame _ _ _ _ E) as (_ & HL & _ & Hn & HC & _).
  destruct failed; simplify_eq. simpl. rewrite Hn, HL, HC.
  split.
  { destruct (listeners (client (runtime sys)) !! fresh (runtime sys)) eqn:Hfound;
      [|done].
    destruct (Hreg _ _ Hfound) as (_ & _ & _ & ? & _). lia. }
  split; [apply lookup_insert_eq|]. split; [|done].
  intros Hin. specialize (Hclosed _ Hin). lia.
Qed.

(** X21: in any state the system reaches, an attach followed at once
    by the detach of the channel it returned goes through and leaves
    the registry as it was before the attach. *)
Theorem attach_then_detach_restores_registry env cfg sys f ch s1 :
  reachable env cfg sys ->
  AddEventsListener env f (runtime sys) = (Ok (inr ch), s1) ->
  exists s2,
    RemoveEventsListener env ch s1 = (Ok tt, s2)
    /\ listeners (client s2) = listeners (client (runtime sys)).
Proof.
  intros Hreach Hadd.
  destruct (attach_returns_new_channel_aux env cfg sys f ch s1 Hreach Hadd)
    as (Hnew & Hfound & Hopen & HL).
  eexists. split; [by apply (RemoveEventsListener_found _ _ _ _ Hfound)|].
  simpl. rewrite HL, delete_insert_eq. by apply delete_id.
Qed.

Lemma run8_attach :
  AddEventsListener sampleEnv 6 (runtime run8)
  = (Ok (inr 3%nat), exec (AddEventsListener sampleEnv 6) (runtime run8)).
Proof. by vm_compute. Qed.

Lemma attach_returns_new_channel_witness :
  listeners (client (runtime run8)) !! 3%nat = None
  /\ (3%nat ∉ closed (runtime run8))
  /\ size (listeners (client (exec (AddEventsListener sampleEnv 6) (runtime run8))))
     = S (size (listeners (client (runtime run8)))).
Proof.
  destruct (attach_returns_new_channel sampleEnv (pushConfig 8080) run8 6 3%nat _
              (proj1 run_reachable) run8_attach)
    as (Hnew & Hopen & _ & _ & _ & Hsize).
  split; [exact Hnew|]. split; [exact Hopen | exact Hsize].
Defined.

Lemma attach_then_detach_restores_registry_witness :
  exists s2,
    RemoveEventsListener sampleEnv 3
      (exec (AddEventsListener sampleEnv 6) (runtime run8)) = (Ok tt, s2)
    /\ listeners (client s2) = listeners (client (runtime run8)).
Proof.
  exact (attach_then_detach_restores_registry sampleEnv (pushConfig 8080) run8 6 3%nat _
           (proj1 run_reachable) run8_attach).
Defined.

(** ** More on the callback setup and on readers and finalizers *)

(** X22: on the first attach under the callback transport, when the
    listener is bound but Marathon cannot be asked for its
    subscriptions, [AddEventsListener] returns that very error and
    registers no subscriber; the server stays set up and its loop runs,
    so a later attach goes straight to the registration. *)
Theorem AddEventsListener_registration_failure env f s ip err :
  EventsTransport (config (client s)) = EventsTransportCallback env ->
  eventsHTTP (client s) = None ->
  (forall t, getInterfaceAddress env t (EventsInterface (config (client s))) = inr ip) ->
  (forall t, netListen env t (ip +:+ ":" +:+ pretty (EventsPort (config (client s))))
             = None) ->
  (forall t, apiGetSubscriptions env t = inl err) ->
  let binding := ip +:+ ":" +:+ pretty (EventsPort (config (client s))) in
  exists s',
    AddEventsListener env f s = (Ok (inl err), s')
    /\ listeners (client s') = listeners (client s)
    /\ fresh s' = fresh s
    /\ eventsHTTP (client s') = Some (mkServer binding 10 10 (Z.shiftl 1 20))
    /\ goroutines s' = goroutines s ++ [GServe binding].
Proof.
  intros Ht Hnil Hip Hbind Hget binding. eexists.
  unfold AddEventsListener. run_setup.
  rewrite Ht, Z.eqb_refl, Hnil, Hip. simpl. rewrite Hbind. simpl. rewrite Hget.
  split; [reflexivity|]. done.
Qed.

Lemma AddEventsListener_registration_failure_witness :
  exists s',
    AddEventsListener
      unansweredEnv 2 (initial (pushConfig 8080))
    = (Ok (inl (foreignError "connection refused")), s')
    /\ listeners (client s') = listeners (client (initial (pushConfig 8080)))
    /\ goroutines s' = goroutines (initial (pushConfig 8080)) ++ [GServe "10.0.0.7:8080"].
Proof.
  destruct (AddEventsListener_registration_failure
              unansweredEnv 2 (initial (pushConfig 8080)) "10.0.0.7"
              (foreignError "connection refused"))
    as (s' & Hrun & HL & _ & _ & Hgs); try (intros; by vm_compute).
  exists s'. split; [exact Hrun|]. split; [exact HL | exact Hgs].
Defined.

(** X23: while a [handleEvent] holds the read lock, every registry
    entry its loop has still to visit is in the registry, with the
    context the loop read: no subscriber is attached or detached under
    a dispatch in progress. *)
Theorem reader_entries_registered env cfg sys rd channel context :
  reachable env cfg sys ->
  rd ∈ readers sys ->
  (channel, context) ∈ readerTodo rd ->
  listeners (client (runtime sys)) !! channel = Some context
  /\ (channel ∉ closed (runtime sys))
  /\ (done context ∉ closed (runtime sys)).
Proof.
  intros Hreach Hrd Hentry.
  pose proof (invariant_reachable _ _ _ Hreach) as [_ Hco].
  pose proof (co_readers _ _ _ _ _ _ Hco rd (channel, context) Hrd Hentry) as Hfound.
  simpl in Hfound. split; [done|].
  destruct (co_registry _ _ _ _ _ _ Hco _ _ Hfound) as (_ & -> & _ & _ & Hopen).
  split; [|done].
  pose proof (co_phase _ _ _ _ _ _ Hco channel) as Hphase.
  unfold registered, shut in Hphase. rewrite Hfound in Hphase.
  case_decide; [lia | done].
Qed.

(** The run up to the reader that has the subscriber still to visit. *)
Lemma run2_reachable : reachable sampleEnv (pushConfig 8080) run2.
Proof.
  assert (reachable sampleEnv (pushConfig 8080) run0) as H0 by constructor.
  assert (step sampleEnv run0 run1) as S1 by (by apply step_attach).
  assert (step sampleEnv run1 run2) as S2.
  { apply (step_payload_decoded sampleEnv run1 "deployment_info" runEvent);
      by vm_compute. }
  exact (reachable_step _ _ _ _ (reachable_step _ _ _ _ H0 S1) S2).
Qed.

Lemma run2_reader :
  mkReader runEvent [(0%nat, runContext)] ∈ readers run2
  /\ (0%nat, runContext) ∈ readerTodo (mkReader runEvent [(0%nat, runContext)]).
Proof. split; vm_compute; repeat constructor. Qed.

Lemma reader_entries_registered_witness :
  listeners (client (runtime run2)) !! 0%nat = Some runContext
  /\ (0%nat ∉ closed (runtime run2))
  /\ (done runContext ∉ closed (runtime run2)).
Proof.
  exact (reader_entries_registered sampleEnv (pushConfig 8080) run2
           (mkReader runEvent [(0%nat, runContext)]) 0%nat runContext
           run2_reachable (proj1 run2_reader) (proj2 run2_reader)).
Defined.

(** X24: a finalizer waits on the wait group made with the channel it
    is to close; that channel is no longer registered and not yet
    closed, so no dispatch can add to the wait group any more. *)
Theorem finalizer_of_detached_channel env cfg sys w ch :
  reachable env cfg sys ->
  GFinalize w ch ∈ goroutines (runtime sys) ->
  w = waitGroupOf ch
  /\ listeners (client (runtime sys)) !! ch = None
  /\ (ch ∉ closed (runtime sys))
  /\ (forall rd context, rd ∈ readers sys -> (ch, context) ∉ readerTodo rd).
Proof.
  intros Hreach Hin.
  pose proof (invariant_reachable _ _ _ Hreach) as [_ Hco].
  destruct (proj1 (Forall_forall _ _) (co_goroutines _ _ _ _ _ _ Hco) _ Hin)
    as (_ & -> & _).
  pose proof (co_phase _ _ _ _ _ _ Hco ch) as Hphase.
  pose proof (sum_list_with_in _ (finalizing ch) _ Hin) as Hfin.
  simpl in Hfin. rewrite decide_True in Hfin by done.
  unfold finalizers, registered, shut in Hphase.
  assert (listeners (client (runtime sys)) !! ch = None) as Hgone.
  { destruct (listeners (client (runtime sys)) !! ch); [lia | done]. }
  split; [done|]. split; [done|]. split; [case_decide; [lia | done]|].
  intros rd context Hrd Hentry.
  pose proof (co_readers _ _ _ _ _ _ Hco rd (ch, context) Hrd Hentry) as Hfound.
  simpl in Hfound. congruence.
Qed.

Lemma run5_finalizer : GFinalize 2 0 ∈ goroutines (runtime run5).
Proof. vm_compute. repeat constructor. Qed.

Lemma finalizer_of_detached_channel_witness :
  2%nat = waitGroupOf 0
  /\ listeners (client (runtime run5)) !! 0%nat = None
  /\ (0%nat ∉ closed (runtime run5))
  /\ (forall rd context, rd ∈ readers run5 -> (0%nat, context) ∉ readerTodo rd).
Proof.
  exact (finalizer_of_detached_channel sampleEnv (pushConfig 8080) run5 2%nat 0%nat
           run5_reachable run5_finalizer).
Defined.
